(** * dbmate, PostgreSQL driver ([pkg/driver/postgres/postgres.go])

  A shallow embedding of the driver's decision logic: resolution of the
  migrations table identity, the ledger statements, the dump script, the
  database-name and dump-argument derivation and the error
  normalisation.  Go strings are byte sequences ([string]); the SQL
  connection is an interface ([Transaction]) threaded through a small
  state monad that also records every statement sent and every line
  written to the driver's log. *)

From Stdlib Require Import ZArith Ascii String List Sorted.
From stdpp Require Import base option list gmap strings sorting.

Local Open Scope string_scope.
Local Open Scope list_scope.

(** ** Go's [strings] package, as far as the driver uses it *)

Module strings.

Definition byte (c : ascii) : N := N_of_ascii c.

(** [strings.Split(s, sep)] for a one-byte separator (the driver only
    splits on "." and ","): always at least one field. *)
Fixpoint Split (s : string) (sep : ascii) : list string :=
  match s with
  | EmptyString => [""]
  | String c r =>
      if Ascii.eqb c sep then "" :: Split r sep
      else match Split r sep with
           | f :: fs => String c f :: fs
           | [] => [String c ""]
           end
  end.

(** [strings.Join(elems, sep)]. *)
Definition Join (elems : list string) (sep : string) : string :=
  String.concat sep elems.

(** [strings.Contains(s, string(c))]. *)
Fixpoint ContainsByte (s : string) (c : ascii) : bool :=
  match s with
  | EmptyString => false
  | String d r => Ascii.eqb d c || ContainsByte r c
  end.

(** [strings.Cut(s, sep)] for a one-byte separator. *)
Fixpoint Cut (s : string) (sep : ascii) : string * string * bool :=
  match s with
  | EmptyString => ("", "", false)
  | String c r =>
      if Ascii.eqb c sep then ("", r, true)
      else let '(before, after, found) := Cut r sep in
           (String c before, after, found)
  end.

(** [strings.CutPrefix(s, p)]: [s] without the prefix [p], when it starts
    with it. *)
Fixpoint stripPrefix (p s : string) : option string :=
  match p, s with
  | EmptyString, _ => Some s
  | String a p', String b s' => if Ascii.eqb a b then stripPrefix p' s' else None
  | String _ _, EmptyString => None
  end.

(** The six ASCII white-space bytes of Go's [asciiSpace] table:
    TAB, LF, VT, FF, CR and SPACE. *)
Definition asciiSpace (c : ascii) : bool :=
  let b := byte c in
  ((9 <=? b) && (b <=? 13) || (b =? 32))%N.

(** [unicode.IsSpace] on the runes that take two bytes in UTF-8:
    U+0085 (NEL) and U+00A0 (NBSP). *)
Definition space2 (c1 c2 : ascii) : bool :=
  ((byte c1 =? 194) && ((byte c2 =? 133) || (byte c2 =? 160)))%N.

(** [unicode.IsSpace] on the runes that take three bytes: U+1680,
    U+2000..U+200A, U+2028, U+2029, U+202F, U+205F and U+3000. *)
Definition space3 (c1 c2 c3 : ascii) : bool :=
  let '(b1, b2, b3) := (byte c1, byte c2, byte c3) in
  ((b1 =? 225) && (b2 =? 154) && (b3 =? 128)
   || (b1 =? 226) && (b2 =? 128)
      && ((128 <=? b3) && (b3 <=? 138) || (b3 =? 168) || (b3 =? 169) || (b3 =? 175))
   || (b1 =? 226) && (b2 =? 129) && (b3 =? 159)
   || (b1 =? 227) && (b2 =? 128) && (b3 =? 128))%N.

(** Drops white-space runes from the front of [s].  With [fwd = true]
    the bytes of a rune are read in order ([TrimLeftFunc]); with
    [fwd = false] the string is a reversed one and the bytes of a rune
    come last byte first ([TrimRightFunc] reads runes from the end). *)
Fixpoint dropSpaces (fwd : bool) (s : string) : string :=
  match s with
  | String c1 r1 =>
      if asciiSpace c1 then dropSpaces fwd r1 else
      match r1 with
      | String c2 r2 =>
          if (if fwd then space2 c1 c2 else space2 c2 c1) then dropSpaces fwd r2 else
          match r2 with
          | String c3 r3 =>
              if (if fwd then space3 c1 c2 c3 else space3 c3 c2 c1)
              then dropSpaces fwd r3 else s
          | EmptyString => s
          end
      | EmptyString => s
      end
  | EmptyString => s
  end.

(** [strings.TrimSpace(s)]: leading and trailing Unicode white space
    removed. *)
Definition TrimSpace (s : string) : string :=
  String.rev (dropSpaces false (String.rev (dropSpaces true s))).

End strings.

(** ** Go's [net/url] package, as far as the driver uses it *)

Module url.

Import strings.

(** [url.Userinfo]: user name and optional password. *)
Record Userinfo := mkUserinfo {
  username : string;
  password : option string
}.

(** [url.URL], the fields of a parsed connection URL. *)
Record URL := mkURL {
  Scheme : string;
  User : option Userinfo;
  Host : string;
  Path : string;
  RawQuery : string;
  Fragment : string
}.

Definition Username (ui : Userinfo) : string := username ui.

(** [url.Values] is [map[string][]string]. *)
Abbreviation Values := (gmap string (list string)).

Definition ishex (c : ascii) : bool :=
  let b := byte c in
  ((48 <=? b) && (b <=? 57) || (97 <=? b) && (b <=? 102) || (65 <=? b) && (b <=? 70))%N.

Definition unhex (c : ascii) : N :=
  let b := byte c in
  (if (48 <=? b) && (b <=? 57) then b - 48
   else if (97 <=? b) && (b <=? 102) then b - 97 + 10
   else if (65 <=? b) && (b <=? 70) then b - 65 + 10
   else 0)%N.

(** [url.QueryUnescape]: "%XX" becomes the byte XX and "+" a space; a
    "%" that is not followed by two hex digits is an error ([None]). *)
Fixpoint QueryUnescape (s : string) : option string :=
  match s with
  | EmptyString => Some ""
  | String c r =>
      if Ascii.eqb c "%" then
        match r with
        | String a (String b r') =>
            if ishex a && ishex b
            then String (ascii_of_N (unhex a * 16 + unhex b)) <$> QueryUnescape r'
            else None
        | _ => None
        end
      else if Ascii.eqb c "+" then String " "%char <$> QueryUnescape r
      else String c <$> QueryUnescape r
  end.

(** One "key=value" setting of a query string, as the loop body of
    [parseQuery] handles it: settings with a semicolon, empty settings
    and settings that do not unescape are skipped. *)
Definition parseSetting (m : Values) (setting : string) : Values :=
  if ContainsByte setting ";" then m
  else if String.eqb setting "" then m
  else
    let '(key, value, _) := Cut setting "=" in
    match QueryUnescape key, QueryUnescape value with
    | Some key, Some value => <[key := default [] (m !! key) ++ [value]]> m
    | _, _ => m
    end.

(** [url.ParseQuery], its error dropped as [URL.Query] does: the
    settings are the fields between "&". *)
Definition ParseQuery (query : string) : Values :=
  fold_left parseSetting (Split query "&") ∅.

(** [u.Query()]. *)
Definition Query (u : URL) : Values := ParseQuery (RawQuery u).

(** [v.Get(key)]: the first value of the key, or the empty string. *)
Definition Get (v : Values) (key : string) : string :=
  match v !! key with
  | Some (x :: _) => x
  | _ => ""
  end.

(** [v.Del(key)]. *)
Definition Del (v : Values) (key : string) : Values := delete key v.

(** [shouldEscape(c, encodeQueryComponent)]: everything but letters,
    digits and "-", "_", ".", "~". *)
Definition shouldEscape (c : ascii) : bool :=
  let b := byte c in
  negb ((97 <=? b) && (b <=? 122) || (65 <=? b) && (b <=? 90) || (48 <=? b) && (b <=? 57)
        || (b =? 45) || (b =? 95) || (b =? 46) || (b =? 126))%N.

Definition upperhex (n : N) : ascii :=
  ascii_of_N (if (n <? 10)%N then 48 + n else 65 + (n - 10))%N.

(** [url.QueryEscape]. *)
Fixpoint QueryEscape (s : string) : string :=
  match s with
  | EmptyString => ""
  | String c r =>
      if Ascii.eqb c " " then String "+" (QueryEscape r)
      else if shouldEscape c
      then String "%" (String (upperhex (byte c / 16)) (String (upperhex (byte c mod 16)) (QueryEscape r)))
      else String c (QueryEscape r)
  end.

(** [v.Encode()]: "key=value" settings joined by "&", keys in sorted
    order, the values of one key in their stored order. *)
Definition Encode (v : Values) : string :=
  let keys := merge_sort String.le (map fst (map_to_list v)) in
  Join (flat_map (fun k =>
          map (fun x => QueryEscape k ++ "=" ++ QueryEscape x)%string
              (default [] (v !! k))) keys) "&".

Definition withRawQuery (u : URL) (q : string) : URL :=
  {| Scheme := Scheme u; User := User u; Host := Host u; Path := Path u;
     RawQuery := q; Fragment := Fragment u |}.

Definition withPath (u : URL) (p : string) : URL :=
  {| Scheme := Scheme u; User := User u; Host := Host u; Path := p;
     RawQuery := RawQuery u; Fragment := Fragment u |}.

End url.

(** ** Go's [strconv] and [fmt] on integers *)

Module strconv.

Import strings.

(** Go's [int] on the 64-bit platforms the tool is built for. *)
Definition minInt : Z := - 2 ^ 63.
Definition maxInt : Z := 2 ^ 63 - 1.

Definition digit (c : ascii) : option Z :=
  let b := byte c in
  if ((48 <=? b) && (b <=? 57))%N then Some (Z.of_N b - 48)%Z else None.

(** The digit loop of [Atoi]: [n = n*10 + digit], a syntax error on any
    other byte. *)
Fixpoint digits (n : Z) (s : string) : option Z :=
  match s with
  | EmptyString => Some n
  | String c r =>
      match digit c with
      | Some d => digits (n * 10 + d)%Z r
      | None => None
      end
  end.

(** [strconv.Atoi]: an optional sign, then one decimal digit or more;
    [None] stands for a syntax or range error. *)
Definition Atoi (s : string) : option Z :=
  let '(neg, body) :=
    match s with
    | String c r =>
        if Ascii.eqb c "-" then (true, r)
        else if Ascii.eqb c "+" then (false, r)
        else (false, s)
    | EmptyString => (false, s)
    end in
  if String.eqb body "" then None
  else match digits 0 body with
       | Some n =>
           let v := (if neg then - n else n)%Z in
           if ((minInt <=? v) && (v <=? maxInt))%Z then Some v else None
       | None => None
       end.

Definition digitChar (d : Z) : ascii := ascii_of_N (48 + Z.to_N d).

(** The digits of [n >= 0] written in front of [acc], least significant
    digit first as [formatBits] does; twenty digits are enough for any
    64-bit value. *)
Fixpoint formatDigits (fuel : nat) (n : Z) (acc : string) : string :=
  match fuel with
  | O => acc
  | S fuel' =>
      let acc' := String (digitChar (n mod 10)) acc in
      if (n <? 10)%Z then acc' else formatDigits fuel' (n / 10) acc'
  end.

(** [strconv.Itoa], which is what the verb [%d] of [fmt.Sprintf] prints. *)
Definition Itoa (n : Z) : string :=
  if (n <? 0)%Z then String "-" (formatDigits 20 (- n) "")
  else formatDigits 20 n "".

End strconv.

(** ** Errors: Go's [error] values, [lib/pq] and [database/sql] *)

Module pq.

(** [pq.Error], the fields the driver reads (and the message). *)
Record Error := mkError {
  Code : string;
  Message : string;
  Position : string
}.

Definition DQ : ascii := "034"%char.

(** [name[:end]] for [end] the index of the first NUL byte, the whole
    name when it has none. *)
Fixpoint untilNUL (name : string) : string :=
  match name with
  | EmptyString => ""
  | String c r => if (strings.byte c =? 0)%N then "" else String c (untilNUL r)
  end.

(** [strings.Replace(name, q, qq, -1)] for [q] the double quote and
    [qq] two of them. *)
Fixpoint doubleQuotes (name : string) : string :=
  match name with
  | EmptyString => ""
  | String c r =>
      if Ascii.eqb c DQ then String DQ (String DQ (doubleQuotes r))
      else String c (doubleQuotes r)
  end.

(** [pq.QuoteIdentifier]. *)
Definition QuoteIdentifier (name : string) : string :=
  String DQ (doubleQuotes (untilNUL name) +:+ String DQ "").

End pq.

(** A non-nil [error]: a [*pq.Error], the sentinel [sql.ErrNoRows], any
    other plain error, or an error that wraps another one
    ([fmt.Errorf] with [%w]).  A nil [error] is [None : option error]. *)
Inductive error :=
| PqError (e : pq.Error)
| ErrNoRows
| ErrorString (msg : string)
| Wrapped (msg : string) (inner : error).

Module errors.

(** [errors.As(err, &pqerr)] with [pqerr : *pq.Error]: the first
    [*pq.Error] on the chain of wrapped errors. *)
Fixpoint As (err : error) : option pq.Error :=
  match err with
  | PqError e => Some e
  | Wrapped _ inner => As inner
  | _ => None
  end.

End errors.

(** The type assertion of [err] to a [*pq.Error]: no unwrapping. *)
Definition assertPqError (err : option error) : option pq.Error :=
  match err with
  | Some (PqError e) => Some e
  | _ => None
  end.

Definition isErrNoRows (err : option error) : bool :=
  match err with
  | Some ErrNoRows => true
  | _ => false
  end.

Module sql.

(** A query argument: a string, or a string array ([pq.Array]). *)
Inductive arg :=
| StringArg (s : string)
| ArrayArg (l : list string).

(** [*sql.Rows] as a reader sees it: what each [Scan] of the next row
    gives, and the error [rows.Err()] reports when the rows end. *)
Record Rows := mkRows {
  scans : list (string + error);
  rowsErr : option error
}.

(** [dbutil.Transaction] (which [*sql.DB] implements), over a connection
    state [DB]; every call returns the connection's next state.
    [QueryRowBool] is [QueryRow] followed by [Scan] into a [bool] that
    was [false] before (it gives the variable's value afterwards);
    [QueryValue] and [QueryColumn] are the helpers of package [dbutil]. *)
Class Transaction (DB : Type) := {
  Exec : string -> list arg -> DB -> option error * DB;
  Query : string -> list arg -> DB -> (Rows * option error) * DB;
  QueryRowBool : string -> list arg -> DB -> (bool * option error) * DB;
  QueryValue : string -> list arg -> DB -> (string * option error) * DB;
  QueryColumn : string -> list arg -> DB -> (list string * option error) * DB
}.

(** A statement or query as sent to the server. *)
Inductive call :=
| CallExec (stmt : string) (args : list arg)
| CallQuery (query : string) (args : list arg).

End sql.

Module dbmate.

(** [dbmate.QueryError]. *)
Record QueryError := mkQueryError {
  Err : option error;
  Query : string;
  Position : Z
}.

End dbmate.

Module os.

(** [os.Getenv]: the empty string for a variable that is not set. *)
Definition Getenv (environ : gmap string string) (key : string) : string :=
  default "" (environ !! key).

End os.

(** ** The driver *)

Definition LF : string := String "010" "".

(** [Driver]; its [log] writer is the [logged] component of the world
    the driver's functions run in. *)
Record Driver := mkDriver {
  migrationsTableName : string;
  databaseURL : url.URL;
  databaseName : string
}.

(** [resolveDatabaseName], the process environment made explicit. *)
Definition resolveDatabaseName (environ : gmap string string) (u : url.URL) : string :=
  let name := url.Path u in
  let name :=
    match name with
    | String c r => if Ascii.eqb c "/" then r else name
    | EmptyString => name
    end in
  let name := if String.eqb name "" then os.Getenv environ "PGDATABASE" else name in
  let name :=
    if String.eqb name ""
    then match url.User u with
         | Some ui => url.Username ui
         | None => name
         end
    else name in
  name.

(** [NewDriver]. *)
Definition NewDriver (environ : gmap string string)
    (MigrationsTableName : string) (DatabaseURL : url.URL) : Driver :=
  {| migrationsTableName := MigrationsTableName;
     databaseURL := DatabaseURL;
     databaseName := resolveDatabaseName environ DatabaseURL |}.

(** Modelled from the spec: [dbutil.MustParseURL] applied to [u.String()]
    (package [dbutil] is not among the sources); the driver uses the
    pair to clone the URL before changing the copy (§4.3: "clones the
    URL").  Values are immutable here, so the clone is the value. *)
Definition cloneURL (u : url.URL) : url.URL := u.

(** The loop of [connectionArgsForDump] over the search-path entries. *)
Definition schemaArgs (schemas : list string) : list string :=
  fold_left
    (fun args schema =>
       let schema := strings.TrimSpace schema in
       if String.eqb schema "" then args else args ++ ["--schema"; schema])
    schemas [].

(** [drv.QueryError]. *)
Definition QueryError (query : string) (err : option error) : dbmate.QueryError :=
  let position :=
    match assertPqError err with
    | Some pqErr =>
        match strconv.Atoi (pq.Position pqErr) with
        | Some pos => pos
        | None => 0%Z
        end
    | None => 0%Z
    end in
  {| dbmate.Err := err; dbmate.Query := query; dbmate.Position := position |}.

Section Driver.

Import sql.

(** The connection type and what lies outside the driver: the rendering
    of a URL ([u.String()]), [sql.Open] for the "postgres" driver and
    [db.Ping], the dump process ([dbutil.RunCommand]) and
    [dbutil.TrimLeadingSQLComments]. *)
Context {DB : Type} `{!Transaction DB}.
Variable URLString : url.URL -> string.
Variable sqlOpen : string -> DB + error.
Variable dbPing : DB -> option error.
Variable RunCommand : string -> list string -> string * option error.
Variable TrimLeadingSQLComments : string -> string * option error.

(** [connectionArgsForDump]. *)
Definition connectionArgsForDump (u : url.URL) : list string :=
  let u := cloneURL u in
  let query := url.Query u in
  let schemas := strings.Split (url.Get query "search_path") "," in
  let query := url.Del query "search_path" in
  let u := url.withRawQuery u (url.Encode query) in
  let args := schemaArgs schemas in
  args ++ [URLString u].

(** What a call of the driver runs in: the connection handed to it, the
    statements sent over it so far and the lines written to the log. *)
Record World := mkWorld {
  conn : DB;
  sent : list call;
  logged : list string
}.

(** A computation either returns a value or panics ([None]). *)
Definition M (A : Type) : Type := World -> option A * World.

#[local] Instance M_ret : MRet M := fun A a w => (Some a, w).

#[local] Instance M_bind : MBind M := fun A B f m w =>
  match m w with
  | (Some a, w') => f a w'
  | (None, w') => (None, w')
  end.

Definition panic {A : Type} : M A := fun w => (None, w).

Definition onConn {A : Type} (c : call) (f : DB -> A * DB) : M A := fun w =>
  let '(a, db) := f (conn w) in
  (Some a, {| conn := db; sent := sent w ++ [c]; logged := logged w |}).

Definition dbExec (stmt : string) (args : list arg) : M (option error) :=
  onConn (CallExec stmt args) (Exec stmt args).

Definition dbQuery (query : string) (args : list arg) : M (Rows * option error) :=
  onConn (CallQuery query args) (Query query args).

Definition dbQueryRowBool (query : string) (args : list arg) : M (bool * option error) :=
  onConn (CallQuery query args) (QueryRowBool query args).

Definition dbQueryValue (query : string) (args : list arg) : M (string * option error) :=
  onConn (CallQuery query args) (QueryValue query args).

Definition dbQueryColumn (query : string) (args : list arg) : M (list string * option error) :=
  onConn (CallQuery query args) (QueryColumn query args).

(** [fmt.Fprintf(drv.log, ..)]. *)
Definition logLine (line : string) : M unit := fun w =>
  (Some tt, {| conn := conn w; sent := sent w; logged := logged w ++ [line] |}).

(** [l[i]]: a run-time panic when [i] is out of range. *)
Definition index (l : list string) (i : nat) : M string :=
  match l !! i with
  | Some x => mret x
  | None => panic
  end.

(** [drv.migrationsTableNameParts]. *)
Definition migrationsTableNameParts (drv : Driver) : M (string * list string * option error) :=
  let schema := "" in
  let tableNameParts := strings.Split (migrationsTableName drv) "." in
  '(schema, tableNameParts) ←
    (if (1 <? length tableNameParts)%nat
     then s ← index tableNameParts 0; mret (s, drop 1 tableNameParts)
     else mret (schema, tableNameParts));
  schema ←
    (if String.eqb schema ""
     then
       let searchPath := strings.Split (url.Get (url.Query (databaseURL drv)) "search_path") "," in
       s ← index searchPath 0; mret (strings.TrimSpace s)
     else mret schema);
  '(schema, err) ←
    (if String.eqb schema ""
     then dbQueryValue "select current_schema()" []
     else mret (schema, None));
  match err with
  | Some _ => mret ("", [], err)
  | None =>
      let schema := if String.eqb schema "" then "public" else schema in
      mret (schema, tableNameParts, None)
  end.

(** [drv.quotedMigrationsTableNameParts]. *)
Definition quotedMigrationsTableNameParts (drv : Driver) : M (string * string * option error) :=
  '(schema, tableNameParts, err) ← migrationsTableNameParts drv;
  match err with
  | Some _ => mret ("", "", err)
  | None =>
      let tableNameParts := [schema] ++ tableNameParts in
      '(quotedNameParts, err) ←
        dbQueryColumn "select quote_ident(unnest($1::text[]))" [ArrayArg tableNameParts];
      match err with
      | Some _ => mret ("", "", err)
      | None =>
          q ← index quotedNameParts 0;
          mret (q, strings.Join (drop 1 quotedNameParts) ".", None)
      end
  end.

(** [drv.quotedMigrationsTableName]. *)
Definition quotedMigrationsTableName (drv : Driver) : M (string * option error) :=
  '(schema, name, err) ← quotedMigrationsTableNameParts drv;
  match err with
  | Some _ => mret ("", err)
  | None => mret (schema +:+ "." +:+ name, None)
  end.

(** The header of the ledger section of a dump. *)
Definition migrationsHeader : string :=
  LF +:+ "--" +:+ LF +:+ "-- Dbmate schema migrations" +:+ LF +:+ "--" +:+ LF +:+ LF.

(** [drv.schemaMigrationsDump]. *)
Definition schemaMigrationsDump (drv : Driver) : M (string * option error) :=
  '(migrationsTable, err) ← quotedMigrationsTableName drv;
  match err with
  | Some _ => mret ("", err)
  | None =>
      '(migrations, err) ←
        dbQueryColumn
          ("select quote_literal(version) from " +:+ migrationsTable +:+ " order by version asc") [];
      match err with
      | Some _ => mret ("", err)
      | None =>
          let buf := migrationsHeader in
          let buf :=
            if (0 <? length migrations)%nat
            then buf +:+ ("INSERT INTO " +:+ migrationsTable +:+ " (version) VALUES" +:+ LF +:+ "    ("
                          +:+ strings.Join migrations (")," +:+ LF +:+ "    (")
                          +:+ ");" +:+ LF)
            else buf in
          mret (buf, None)
      end
  end.

(** [drv.DumpSchema]. *)
Definition DumpSchema (drv : Driver) : M (string * option error) :=
  let args :=
    ["--format=plain"; "--encoding=UTF8"; "--schema-only"; "--no-privileges"; "--no-owner"]
    ++ connectionArgsForDump (databaseURL drv) in
  let '(schema, err) := RunCommand "pg_dump" args in
  match err with
  | Some _ => mret ("", err)
  | None =>
      '(migrations, err) ← schemaMigrationsDump drv;
      match err with
      | Some _ => mret ("", err)
      | None => mret (TrimLeadingSQLComments (schema +:+ migrations))
      end
  end.

(** [drv.ping]: opens a connection of its own and pings it. *)
Definition ping (drv : Driver) : option error :=
  match sqlOpen (URLString (databaseURL drv)) with
  | inl db => dbPing db
  | inr err => Some err
  end.

Definition isCode (code : string) (e : option pq.Error) : bool :=
  match e with
  | Some pqerr => String.eqb (pq.Code pqerr) code
  | None => false
  end.

(** [drv.DatabaseExists]. *)
Definition DatabaseExists (drv : Driver) : bool * option error :=
  match ping drv with
  | None => (true, None)
  | Some err =>
      if isCode "3D000" (errors.As err) then (false, None)
      else (false, Some err)
  end.

(** [drv.MigrationsTableExists]. *)
Definition MigrationsTableExists (drv : Driver) : M (bool * option error) :=
  '(schema, migrationsTableNameParts, err) ← migrationsTableNameParts drv;
  match err with
  | Some _ => mret (false, err)
  | None =>
      let migrationsTable := strings.Join migrationsTableNameParts "." in
      '(exists_, err) ←
        dbQueryRowBool
          ("SELECT 1 FROM information_schema.tables "
           +:+ "WHERE  table_schema = $1 "
           +:+ "AND    table_name   = $2")
          [StringArg schema; StringArg migrationsTable];
      if isErrNoRows err then mret (false, None)
      else mret (exists_, err)
  end.

Definition createTableStmt (schema migrationsTable : string) : string :=
  "create table if not exists " +:+ schema +:+ "." +:+ migrationsTable
  +:+ " (version varchar(128) primary key)".

Definition createSchemaStmt (schema : string) : string :=
  "create schema if not exists " +:+ schema.

(** [drv.CreateMigrationsTable]. *)
Definition CreateMigrationsTable (drv : Driver) : M (option error) :=
  '(schema, migrationsTable, err) ← quotedMigrationsTableNameParts drv;
  match err with
  | Some _ => mret err
  | None =>
      let createTableStmt := createTableStmt schema migrationsTable in
      err ← dbExec createTableStmt [];
      match err with
      | None => mret None
      | Some _ =>
          if negb (isCode "3F000" (assertPqError err)) then mret err
          else
            _ ← logLine ("Creating schema: " +:+ schema +:+ LF);
            err ← dbExec (createSchemaStmt schema) [];
            match err with
            | Some _ => mret err
            | None => dbExec createTableStmt []
            end
      end
  end.

(** The [rows.Next] / [rows.Scan] loop of [SelectMigrations]. *)
Fixpoint scanVersions (scans : list (string + error)) (migrations : gmap string bool)
  : gmap string bool * option error :=
  match scans with
  | [] => (migrations, None)
  | inl version :: rest => scanVersions rest (<[version := true]> migrations)
  | inr err :: _ => (migrations, Some err)
  end.

Definition selectMigrationsQuery (migrationsTable : string) (limit : Z) : string :=
  let query := "select version from " +:+ migrationsTable +:+ " order by version desc" in
  if (0 <=? limit)%Z then query +:+ " limit " +:+ strconv.Itoa limit else query.

(** [drv.SelectMigrations]; a nil map is the empty map. *)
Definition SelectMigrations (drv : Driver) (limit : Z) : M (gmap string bool * option error) :=
  '(migrationsTable, err) ← quotedMigrationsTableName drv;
  match err with
  | Some _ => mret (∅, err)
  | None =>
      '(rows, err) ← dbQuery (selectMigrationsQuery migrationsTable limit) [];
      match err with
      | Some _ => mret (∅, err)
      | None =>
          let '(migrations, err) := scanVersions (scans rows) ∅ in
          match err with
          | Some _ => mret (∅, err)
          | None =>
              match rowsErr rows with
              | Some err => mret (∅, Some err)
              | None => mret (migrations, None)
              end
          end
      end
  end.

(** [drv.InsertMigration]. *)
Definition InsertMigration (drv : Driver) (version : string) : M (option error) :=
  '(migrationsTable, err) ← quotedMigrationsTableName drv;
  match err with
  | Some _ => mret err
  | None =>
      dbExec ("insert into " +:+ migrationsTable +:+ " (version) values ($1)") [StringArg version]
  end.

(** [drv.DeleteMigration]. *)
Definition DeleteMigration (drv : Driver) (version : string) : M (option error) :=
  '(migrationsTable, err) ← quotedMigrationsTableName drv;
  match err with
  | Some _ => mret err
  | None =>
      dbExec ("delete from " +:+ migrationsTable +:+ " where version = $1") [StringArg version]
  end.

(** [drv.Open]. *)
Definition Open (drv : Driver) : DB + error :=
  sqlOpen (URLString (databaseURL drv)).

(** [drv.openMaintenanceDB]. *)
Definition openMaintenanceDB (drv : Driver) : DB + error :=
  let u := cloneURL (databaseURL drv) in
  let u := url.withPath u "postgres" in
  sqlOpen (URLString u).

(** [drv.CreateDatabase]; the statement runs on the maintenance
    connection, which is closed when the function returns. *)
Definition CreateDatabase (drv : Driver) : M (option error) :=
  _ ← logLine ("Creating: " +:+ databaseName drv +:+ LF);
  match openMaintenanceDB drv with
  | inl db =>
      mret (fst (Exec ("create database " +:+ pq.QuoteIdentifier (databaseName drv) +:+ ";")
                   [] db))
  | inr err => mret (Some err)
  end.

(** [drv.DropDatabase]. *)
Definition DropDatabase (drv : Driver) : M (option error) :=
  _ ← logLine ("Dropping: " +:+ databaseName drv +:+ LF);
  match openMaintenanceDB drv with
  | inl db =>
      mret (fst (Exec ("drop database if exists "
                       +:+ pq.QuoteIdentifier (databaseName drv) +:+ ";") [] db))
  | inr err => mret (Some err)
  end.

(** [drv.Ping]: [err] is the function's named result, nil from the
    start; the one assignment to it stores nil. *)
Definition Ping (drv : Driver) : option error :=
  let err : option error := None in
  let pqerr :=
    match ping drv with
    | Some e => errors.As e
    | None => None
    end in
  if isCode "3D000" pqerr then None else err.

End Driver.

Arguments World DB : clear implicits.
Arguments M DB A : clear implicits.

(** ** What the server does with the ledger queries *)

Module pgsql.

(** The rows of [select version from T order by version desc] with an
    optional [limit n] clause, given the table's versions in descending
    order; [None] for any other text. *)
Definition selectVersionsDesc (T : string) (descending : list string) (query : string)
  : option (list string) :=
  match strings.stripPrefix ("select version from " +:+ T +:+ " order by version desc") query with
  | Some EmptyString => Some descending
  | Some clause =>
      match strings.stripPrefix " limit " clause with
      | Some count =>
          match strconv.Atoi count with
          | Some n => if (0 <=? n)%Z then Some (take (Z.to_nat n) descending) else None
          | None => None
          end
      | None => None
      end
  | None => None
  end.

Definition rowsOf (versions : list string) : sql.Rows :=
  {| sql.scans := map inl versions; sql.rowsErr := None |}.

End pgsql.

(** ** A scripted server, for concrete runs *)

Module Mock.

Definition DQ : string := String "034" "".

(** Quoting that always adds the quotes. *)
Definition quoteIdent (s : string) : string := DQ +:+ s +:+ DQ.
Definition quoteLiteral (s : string) : string := "'" +:+ s +:+ "'".

(** The server's state: the answer to [select current_schema()], the
    answers to the next statements executed (none left: success), the
    quoted name of the ledger table and its versions in ascending
    order, and whether the catalog lists the table. *)
Record DB := mkDB {
  currentSchema : string * option error;
  execAnswers : list (option error);
  ledgerTable : string;
  ledger : list string;
  listed : bool
}.

Definition exec (stmt : string) (args : list sql.arg) (db : DB) : option error * DB :=
  match execAnswers db with
  | a :: rest =>
      (a, {| currentSchema := currentSchema db; execAnswers := rest;
             ledgerTable := ledgerTable db; ledger := ledger db; listed := listed db |})
  | [] => (None, db)
  end.

Definition query (q : string) (args : list sql.arg) (db : DB) : (sql.Rows * option error) * DB :=
  match pgsql.selectVersionsDesc (ledgerTable db) (rev (ledger db)) q with
  | Some rows => ((pgsql.rowsOf rows, None), db)
  | None => ((pgsql.rowsOf [], Some (ErrorString "syntax error")), db)
  end.

Definition queryRowBool (q : string) (args : list sql.arg) (db : DB) : (bool * option error) * DB :=
  if listed db then ((true, None), db) else ((false, Some ErrNoRows), db).

Definition queryValue (q : string) (args : list sql.arg) (db : DB) : (string * option error) * DB :=
  (currentSchema db, db).

Definition queryColumn (q : string) (args : list sql.arg) (db : DB) : (list string * option error) * DB :=
  match args with
  | [sql.ArrayArg parts] => ((map quoteIdent parts, None), db)
  | _ => ((map quoteLiteral (ledger db), None), db)
  end.

#[global] Instance transaction : sql.Transaction DB := {|
  sql.Exec := exec;
  sql.Query := query;
  sql.QueryRowBool := queryRowBool;
  sql.QueryValue := queryValue;
  sql.QueryColumn := queryColumn
|}.

Definition world (db : DB) : World DB := {| conn := db; sent := []; logged := [] |}.

Definition pgURL (path rawQuery : string) : url.URL :=
  {| url.Scheme := "postgres";
     url.User := Some {| url.username := "app"; url.password := Some "secret" |};
     url.Host := "localhost:5432";
     url.Path := path;
     url.RawQuery := rawQuery;
     url.Fragment := "" |}.

(** A stand-in for [u.String()]. *)
Definition urlString (u : url.URL) : string :=
  url.Scheme u +:+ "://" +:+ url.Host u +:+ url.Path u
  +:+ (if String.eqb (url.RawQuery u) "" then "" else "?" +:+ url.RawQuery u).

Definition permissionDenied : error :=
  PqError {| pq.Code := "42501"; pq.Message := "permission denied for database"; pq.Position := "" |}.

Definition schemaMissing : error :=
  PqError {| pq.Code := "3F000"; pq.Message := "schema does not exist"; pq.Position := "" |}.

Definition databaseMissing : error :=
  PqError {| pq.Code := "3D000"; pq.Message := "database does not exist"; pq.Position := "" |}.

End Mock.

(** ** Notions the properties are stated with *)

(** A string begins with a decimal digit. *)
Definition startsWithDigit (s : string) : Prop :=
  match s with
  | String c _ => is_Some (strconv.digit c)
  | EmptyString => False
  end.

(** The first non-empty string of a list of candidates, or the empty
    string when there is none. *)
Definition firstNonEmpty (candidates : list string) : string :=
  hd "" (filter (fun s => s <> "") candidates).

(** The path of a URL without its leading slash. *)
Definition pathSegment (u : url.URL) : string :=
  default (url.Path u) (strings.stripPrefix "/" (url.Path u)).

(** The user name of a URL, empty when it has no user part. *)
Definition userName (u : url.URL) : string :=
  from_option url.Username "" (url.User u).

(** The engine's signals: a [*pq.Error] with the given SQLSTATE code,
    found on the chain of wrapped errors ([signalled]) or being the
    error itself ([signalledDirectly]). *)
Definition signalled (code : string) (err : error) : Prop :=
  exists e, errors.As err = Some e /\ pq.Code e = code.

Definition signalledDirectly (code : string) (err : error) : Prop :=
  exists e, err = PqError e /\ pq.Code e = code.

(** What [DatabaseExists] has to answer to the outcome of the ping. *)
Inductive existsAnswer : option error -> bool * option error -> Prop :=
| exists_present : existsAnswer None (true, None)
| exists_absent err :
    signalled "3D000" err -> existsAnswer (Some err) (false, None)
| exists_failed err :
    ~ signalled "3D000" err -> existsAnswer (Some err) (false, Some err).

(** The position a query failure carries: the engine's position field
    when the failure is a [*pq.Error] whose field parses as an [int],
    and 0 otherwise. *)
Inductive positionOf : option error -> Z -> Prop :=
| position_parsed e n :
    strconv.Atoi (pq.Position e) = Some n -> positionOf (Some (PqError e)) n
| position_unparsed e :
    strconv.Atoi (pq.Position e) = None -> positionOf (Some (PqError e)) 0%Z
| position_absent err :
    (forall e, err <> Some (PqError e)) -> positionOf err 0%Z.

(** The non-blank entries of a comma-separated search path, trimmed. *)
Definition searchPathEntries (searchPath : string) : list string :=
  filter (fun s => s <> "") (map strings.TrimSpace (strings.Split searchPath ",")).

(** The first entry of the URL's search path, trimmed. *)
Definition searchPathSchema (u : url.URL) : string :=
  strings.TrimSpace (hd "" (strings.Split (url.Get (url.Query u) "search_path") ",")).

(** The segments of a configured table name after the schema segment:
    all but the first when the name has a dot, the name itself otherwise. *)
Definition tableSegments (name : string) : list string :=
  if strings.ContainsByte name "." then drop 1 (strings.Split name ".")
  else strings.Split name ".".

Definition firstSegment (name : string) : string :=
  hd "" (strings.Split name ".").

(** The world after one more call on the connection. *)
Definition after {DB : Type} (w : World DB) (c : sql.call) (db : DB) : World DB :=
  {| conn := db; sent := sent w ++ [c]; logged := logged w |}.

Definition afterLog {DB : Type} (w : World DB) (line : string) : World DB :=
  {| conn := conn w; sent := sent w; logged := logged w ++ [line] |}.

(** The statement texts of the ledger operations. *)
Definition catalogQuery : string :=
  "SELECT 1 FROM information_schema.tables WHERE  table_schema = $1 AND    table_name   = $2".

Definition quoteQuery : string := "select quote_ident(unnest($1::text[]))".

(** Fixtures: a driver for the default table name, one for a name of
    three segments, and a server that holds the given versions. *)
Definition ledgerDriver : Driver :=
  NewDriver ∅ "schema_migrations" (Mock.pgURL "/app" "").

Definition dottedDriver (name : string) : Driver :=
  NewDriver ∅ name (Mock.pgURL "/app" "").

Definition searchPathDriver (name : string) : Driver :=
  NewDriver ∅ name (Mock.pgURL "/app" "search_path=foo,bar").

Definition ledgerName : string :=
  Mock.quoteIdent "public" +:+ "." +:+ Mock.quoteIdent "schema_migrations".

Definition server (answers : list (option error)) (versions : list string) : World Mock.DB :=
  Mock.world (Mock.mkDB ("public", None) answers ledgerName versions false).

(** A server on which the first table creation fails for want of the
    schema and everything after it succeeds; one on which the schema
    creation is then refused. *)
Definition retryServer : World Mock.DB :=
  server [Some Mock.schemaMissing; None; None] [].

Definition refusingServer : World Mock.DB :=
  server [Some Mock.schemaMissing; Some Mock.permissionDenied; None] [].

Definition threeVersions : list string := ["20230101"; "20230102"; "20230103"].


(** The bytes that structure a query string. *)
Definition separator (d : ascii) : Prop := d = "&"%char \/ d = "="%char \/ d = ";"%char.

(** A setting as [Encode] writes it, and what parsing one adds. *)
Definition setting (kv : string * string) : string :=
  url.QueryEscape kv.1 +:+ "=" +:+ url.QueryEscape kv.2.

Definition addValue (m : url.Values) (kv : string * string) : url.Values :=
  <[kv.1 := default [] (m !! kv.1) ++ [kv.2]]> m.

(** Values every key of which has a value, as [ParseQuery] builds them. *)
Definition populated (v : url.Values) : Prop := forall k, v !! k <> Some [].

(** White space that is not ASCII: a no-break space (U+00A0), an em
    space (U+2003) and an ideographic space (U+3000), in UTF-8. *)
Definition NBSP : string := String "194" (String "160" "").
Definition EMSP : string := String "226" (String "128" (String "131" "")).
Definition IDSP : string := String "227" (String "128" (String "128" "")).

Ltac unfold_run :=
  unfold mbind, M_bind, mret, M_ret, index, panic, dbQueryValue, dbQueryColumn,
    dbQueryRowBool, dbQuery, dbExec, logLine, onConn.

(** ** Notions for the properties of the other operations *)

(** A call that only reads. *)
Definition isQuery (c : sql.call) : bool :=
  match c with
  | sql.CallQuery _ _ => true
  | sql.CallExec _ _ => false
  end.

(** The text of a call, its arguments left out. *)
Definition callText (c : sql.call) : string :=
  match c with
  | sql.CallQuery text _ => text
  | sql.CallExec text _ => text
  end.

(** From [w] to [w'] at most [n] calls were sent, all of them queries,
    and nothing was written to the log. *)
Definition queriesOnly {DB : Type} (n : nat) (w w' : World DB) : Prop :=
  logged w' = logged w
  /\ exists calls,
       sent w' = sent w ++ calls
       /\ Forall (fun c => isQuery c = true) calls
       /\ length calls <= n.

(** The body of a quoted identifier as the server's lexer reads it, up
    to the closing quote: two quotes in a row stand for one.  Gives the
    identifier and the text after the closing quote. *)
Fixpoint scanQuotedBody (s : string) : option (string * string) :=
  match s with
  | EmptyString => None
  | String c r =>
      if Ascii.eqb c pq.DQ then
        match r with
        | String c' r' =>
            if Ascii.eqb c' pq.DQ
            then (fun '(name, rest) => (String pq.DQ name, rest)) <$> scanQuotedBody r'
            else Some ("", r)
        | EmptyString => Some ("", r)
        end
      else (fun '(name, rest) => (String c name, rest)) <$> scanQuotedBody r
  end.

(** A quoted identifier at the start of [s]. *)
Definition scanQuoted (s : string) : option (string * string) :=
  match s with
  | String c r => if Ascii.eqb c pq.DQ then scanQuotedBody r else None
  | EmptyString => None
  end.

(** [s] starts with a white-space rune (read as [dropSpaces] reads). *)
Definition leadingSpace (fwd : bool) (s : string) : bool :=
  match s with
  | String c1 r1 =>
      strings.asciiSpace c1
      || match r1 with
         | String c2 r2 =>
             (if fwd then strings.space2 c1 c2 else strings.space2 c2 c1)
             || match r2 with
                | String c3 _ =>
                    if fwd then strings.space3 c1 c2 c3 else strings.space3 c3 c2 c1
                | EmptyString => false
                end
         | EmptyString => false
         end
  | EmptyString => false
  end.

(** The fixed flags of the dump process. *)
Definition dumpFlags : list string :=
  ["--format=plain"; "--encoding=UTF8"; "--schema-only"; "--no-privileges"; "--no-owner"].

(** A connection on which every call fails with the same error. *)
Module Broken.

Definition failure : error := ErrorString "connection refused".

#[global] Instance transaction : sql.Transaction unit := {|
  sql.Exec := fun _ _ db => (Some failure, db);
  sql.Query := fun _ _ db => ((pgsql.rowsOf [], Some failure), db);
  sql.QueryRowBool := fun _ _ db => ((false, Some failure), db);
  sql.QueryValue := fun _ _ db => (("", Some failure), db);
  sql.QueryColumn := fun _ _ db => (([], Some failure), db)
|}.

Definition world : World unit := {| conn := tt; sent := []; logged := [] |}.

End Broken.

(** A server that answers the quoting query with no rows: the scripted
    server, its [QueryColumn] replaced. *)
Module Silent.

Record DB := mkDB { inner : Mock.DB }.

#[global] Instance transaction : sql.Transaction DB := {|
  sql.Exec := fun q a db => let '(r, d) := Mock.exec q a (inner db) in (r, mkDB d);
  sql.Query := fun q a db => let '(r, d) := Mock.query q a (inner db) in (r, mkDB d);
  sql.QueryRowBool := fun q a db =>
    let '(r, d) := Mock.queryRowBool q a (inner db) in (r, mkDB d);
  sql.QueryValue := fun q a db => let '(r, d) := Mock.queryValue q a (inner db) in (r, mkDB d);
  sql.QueryColumn := fun _ _ db => (([], None), db)
|}.

Definition world : World DB :=
  {| conn := mkDB (Mock.mkDB ("public", None) [] ledgerName [] false);
     sent := []; logged := [] |}.

End Silent.

(** A server whose answer to a select has a row that does not scan
    after the first one: the scripted server, its [Query] replaced. *)
Module Flaky.

Record DB := mkDB { inner : Mock.DB }.

Definition scanFailure : error := ErrorString "unsupported Scan".

Definition answer : sql.Rows :=
  {| sql.scans := [inl "20230103"; inr scanFailure; inl "20230101"];
     sql.rowsErr := None |}.

#[global] Instance transaction : sql.Transaction DB := {|
  sql.Exec := fun q a db => let '(r, d) := Mock.exec q a (inner db) in (r, mkDB d);
  sql.Query := fun _ _ db => ((answer, None), db);
  sql.QueryRowBool := fun q a db =>
    let '(r, d) := Mock.queryRowBool q a (inner db) in (r, mkDB d);
  sql.QueryValue := fun q a db => let '(r, d) := Mock.queryValue q a (inner db) in (r, mkDB d);
  sql.QueryColumn := fun q a db =>
    let '(r, d) := Mock.queryColumn q a (inner db) in (r, mkDB d)
|}.

Definition world : World DB :=
  {| conn := mkDB (Mock.mkDB ("public", None) [] ledgerName [] false);
     sent := []; logged := [] |}.

End Flaky.

(** Fixtures for the connection functions: [sql.Open] that reaches a
    server with the given ping result, and one that fails. *)
Definition reachable (db : Mock.DB) : string -> Mock.DB + error := fun _ => inl db.
Definition unreachable (e : error) : string -> Mock.DB + error := fun _ => inr e.

Definition idleDB : Mock.DB := Mock.mkDB ("public", None) [] ledgerName [] false.

(** ** Facts about the library models *)

Section StringFacts.

Import strings.

Lemma Split_cons (s : string) (sep : ascii) :
  ∃ f fs, Split s sep = f :: fs.
Proof.
  induction s as [|c r IH]; simpl; [eauto|].
  destruct (Ascii.eqb c sep); [eauto|].
  destruct IH as (f & fs & ->). eauto.
Qed.

Lemma Split_one_iff (s : string) (sep : ascii) :
  (1 <? length (Split s sep))%nat = ContainsByte s sep.
Proof.
  induction s as [|c r IH]; simpl; [done|].
  destruct (Ascii.eqb c sep); simpl.
  - destruct (Split_cons r sep) as (f & fs & ->). done.
  - destruct (Split_cons r sep) as (f & fs & E). rewrite E in IH |- *. exact IH.
Qed.

Lemma stripPrefix_app (p r : string) : strings.stripPrefix p (p +:+ r) = Some r.
Proof.
  induction p as [|a p IH]; simpl; [done|].
  by rewrite Ascii.eqb_refl.
Qed.

Lemma append_assoc (a b c : string) : (a +:+ b) +:+ c = a +:+ (b +:+ c).
Proof.
  induction a as [|x a IH]; [done|].
  change (String x ((a +:+ b) +:+ c) = String x (a +:+ b +:+ c)). by rewrite IH.
Qed.

End StringFacts.

Section DecimalFacts.

Import strconv.
Local Open Scope Z_scope.

Lemma digit_digitChar (d : Z) : 0 <= d < 10 -> digit (digitChar d) = Some d.
Proof.
  intros H.
  assert (d = 0 \/ d = 1 \/ d = 2 \/ d = 3 \/ d = 4 \/ d = 5 \/ d = 6 \/ d = 7 \/ d = 8 \/ d = 9)
    as Hd by lia.
  repeat (destruct Hd as [-> | Hd]; [reflexivity|]). subst d. reflexivity.
Qed.

Lemma digit_not_sign (c : ascii) (d : Z) :
  digit c = Some d -> Ascii.eqb c "-" = false /\ Ascii.eqb c "+" = false.
Proof.
  destruct c as [[] [] [] [] [] [] [] []]; vm_compute; intros; try discriminate; auto.
Qed.

Lemma formatDigits_starts (fuel : nat) : forall n acc,
  0 <= n -> startsWithDigit acc -> startsWithDigit (formatDigits fuel n acc).
Proof.
  induction fuel as [|fuel IH]; intros n acc Hn Hacc; simpl; [done|].
  assert (startsWithDigit (String (digitChar (n mod 10)) acc)) as H'.
  { simpl. rewrite digit_digitChar; [eauto|]. apply Z.mod_pos_bound. lia. }
  destruct (n <? 10); [done|].
  apply IH; [|done]. apply Z.div_pos; lia.
Qed.

Lemma digits_formatDigits (fuel : nat) : forall n acc,
  0 <= n < 10 ^ Z.of_nat fuel ->
  exists p, forall a, digits a (formatDigits fuel n acc) = digits (a * p + n) acc.
Proof.
  induction fuel as [|fuel IH]; intros n acc Hn.
  - exists 1. intros a. simpl in *. f_equal. lia.
  - simpl. destruct (Z.ltb_spec n 10) as [Hlt|Hge].
    + exists 10. intros a. simpl. rewrite digit_digitChar by (apply Z.mod_pos_bound; lia).
      rewrite Z.mod_small by lia. done.
    + destruct (IH (n / 10) (String (digitChar (n mod 10)) acc)) as [p Hp].
      { split; [apply Z.div_pos; lia|].
        apply Z.div_lt_upper_bound; [lia|].
        rewrite Nat2Z.inj_succ, Z.pow_succ_r in Hn by lia. lia. }
      exists (p * 10). intros a. rewrite Hp. simpl.
      rewrite digit_digitChar by (apply Z.mod_pos_bound; lia).
      f_equal. pose proof (Z.div_mod n 10). lia.
Qed.

Lemma formatDigits_S_starts (fuel : nat) (n : Z) (acc : string) :
  0 <= n -> startsWithDigit (formatDigits (S fuel) n acc).
Proof.
  intros Hn.
  change (formatDigits (S fuel) n acc)
    with (if n <? 10 then String (digitChar (n mod 10)) acc
          else formatDigits fuel (n / 10) (String (digitChar (n mod 10)) acc)).
  assert (startsWithDigit (String (digitChar (n mod 10)) acc)) as H'.
  { unfold startsWithDigit. rewrite digit_digitChar; [eauto|]. apply Z.mod_pos_bound. lia. }
  destruct (n <? 10); [done|].
  apply formatDigits_starts; [apply Z.div_pos; lia|done].
Qed.

Lemma digits_formatDigits_20 (n : Z) :
  0 <= n <= 2 ^ 63 ->
  startsWithDigit (formatDigits 20 n "") /\ digits 0 (formatDigits 20 n "") = Some n.
Proof.
  intros Hn. split.
  - apply (formatDigits_S_starts 19). lia.
  - destruct (digits_formatDigits 20 n "") as [p Hp].
    { split; [lia|]. change (10 ^ Z.of_nat 20) with 100000000000000000000.
      change (2 ^ 63) with 9223372036854775808 in Hn. lia. }
    rewrite Hp. done.
Qed.

(** Printing an [int] and parsing it back gives the number. *)
Lemma Atoi_Itoa (n : Z) : minInt <= n <= maxInt -> Atoi (Itoa n) = Some n.
Proof.
  unfold minInt, maxInt. intros Hn. unfold Itoa.
  assert (forall v, - 2 ^ 63 <= v <= 2 ^ 63 - 1 ->
            ((minInt <=? v) && (v <=? maxInt)) = true) as Hrange.
  { intros v Hv. unfold minInt, maxInt.
    destruct (Z.leb_spec (- 2 ^ 63) v); [|lia].
    destruct (Z.leb_spec v (2 ^ 63 - 1)); [done|lia]. }
  destruct (Z.ltb_spec n 0) as [Hneg|Hpos].
  - destruct (digits_formatDigits_20 (- n)) as (Hs & Hd); [lia|].
    unfold Atoi. change (Ascii.eqb "-" "-") with true. cbv iota.
    destruct (formatDigits 20 (- n) "") as [|c r] eqn:E; [done|].
    change (String.eqb (String c r) "") with false. cbv iota.
    rewrite Hd, Z.opp_involutive, Hrange by lia. done.
  - destruct (digits_formatDigits_20 n) as (Hs & Hd); [lia|].
    unfold Atoi. destruct (formatDigits 20 n "") as [|c r] eqn:E; [done|].
    destruct Hs as [d Hc]. destruct (digit_not_sign c d Hc) as [-> ->].
    change (String.eqb (String c r) "") with false. cbv iota.
    rewrite Hd, Hrange by lia. done.
Qed.

End DecimalFacts.

(** ** The library models on examples *)

Example Split_dots : strings.Split "a.b.c" "." = ["a"; "b"; "c"].
Proof. reflexivity. Qed.

Example Split_empty : strings.Split "" "," = [""].
Proof. reflexivity. Qed.

Example TrimSpace_ascii : strings.TrimSpace "  a b	 " = "a b".
Proof. reflexivity. Qed.

Example ParseQuery_search_path :
  url.Get (url.ParseQuery "sslmode=disable&search_path=%20a%20,+b,,c+&x") "search_path"
  = " a , b,,c ".
Proof. vm_compute. reflexivity. Qed.

Example Encode_sorted :
  url.Encode (url.Del (url.ParseQuery "sslmode=disable&search_path=a,b&application_name=my app") "search_path")
  = "application_name=my+app&sslmode=disable".
Proof. vm_compute. reflexivity. Qed.

Example TrimSpace_unicode :
  strings.TrimSpace (NBSP +:+ " a" +:+ EMSP +:+ "b " +:+ IDSP) = "a" +:+ EMSP +:+ "b".
Proof. vm_compute. reflexivity. Qed.

Example Split_leading_dot : strings.Split ".t" "." = [""; "t"].
Proof. reflexivity. Qed.

Example Atoi_examples :
  strconv.Atoi "42" = Some 42%Z /\ strconv.Atoi "+7" = Some 7%Z
  /\ strconv.Atoi "" = None /\ strconv.Atoi "4x" = None
  /\ strconv.Atoi "9223372036854775808" = None.
Proof. repeat split; reflexivity. Qed.

(** ** Query strings: encoding and parsing back *)

Section QueryStrings.

Import strings url.

Lemma ContainsByte_app (a b : string) (d : ascii) :
  ContainsByte (a +:+ b) d = ContainsByte a d || ContainsByte b d.
Proof.
  induction a as [|c a IH]; [done|].
  change (String c a +:+ b) with (String c (a +:+ b)). simpl.
  by rewrite IH, orb_assoc.
Qed.

Lemma QueryEscape_cons (c : ascii) (r : string) :
  QueryEscape (String c r) = QueryEscape (String c "") +:+ QueryEscape r.
Proof.
  simpl. destruct (Ascii.eqb c " "); [done|]. by destruct (shouldEscape c).
Qed.

Lemma QueryEscape_byte_clean (c d : ascii) :
  separator d -> ContainsByte (QueryEscape (String c "")) d = false.
Proof.
  intros [-> | [-> | ->]];
    destruct c as [[] [] [] [] [] [] [] []]; vm_compute; reflexivity.
Qed.

Lemma QueryEscape_clean (s : string) (d : ascii) :
  separator d -> ContainsByte (QueryEscape s) d = false.
Proof.
  intros Hd. induction s as [|c r IH]; [done|].
  by rewrite QueryEscape_cons, ContainsByte_app, QueryEscape_byte_clean, IH.
Qed.

Lemma QueryUnescape_byte (c : ascii) (t : string) :
  QueryUnescape (QueryEscape (String c "") +:+ t) = String c <$> QueryUnescape t.
Proof.
  destruct c as [[] [] [] [] [] [] [] []]; reflexivity.
Qed.

Lemma QueryUnescape_QueryEscape (s : string) : QueryUnescape (QueryEscape s) = Some s.
Proof.
  induction s as [|c r IH]; [done|].
  by rewrite QueryEscape_cons, QueryUnescape_byte, IH.
Qed.

Lemma Cut_app (a b : string) (sep : ascii) :
  ContainsByte a sep = false -> Cut (a +:+ String sep b) sep = (a, b, true).
Proof.
  induction a as [|c a IH]; intros Ha.
  - change ("" +:+ String sep b) with (String sep b). simpl. by rewrite Ascii.eqb_refl.
  - change (String c a +:+ String sep b) with (String c (a +:+ String sep b)).
    simpl in *. apply orb_false_elim in Ha as [Hc Ha].
    by rewrite Hc, IH.
Qed.

Lemma Split_clean (a : string) (sep : ascii) :
  ContainsByte a sep = false -> Split a sep = [a].
Proof.
  induction a as [|c a IH]; intros Ha; [done|].
  simpl in *. apply orb_false_elim in Ha as [Hc Ha]. by rewrite Hc, IH.
Qed.

Lemma Split_app (a b : string) (sep : ascii) :
  ContainsByte a sep = false -> Split (a +:+ String sep b) sep = a :: Split b sep.
Proof.
  induction a as [|c a IH]; intros Ha.
  - change ("" +:+ String sep b) with (String sep b). simpl. by rewrite Ascii.eqb_refl.
  - change (String c a +:+ String sep b) with (String c (a +:+ String sep b)).
    simpl in *. apply orb_false_elim in Ha as [Hc Ha].
    by rewrite Hc, IH.
Qed.

Lemma Split_Join (l : list string) (sep : ascii) :
  l <> [] -> Forall (fun s => ContainsByte s sep = false) l ->
  Split (Join l (String sep "")) sep = l.
Proof.
  intros Hl Hclean. induction Hclean as [|x l Hx Hclean IH]; [done|].
  destruct l as [|y l].
  - by apply Split_clean.
  - change (Join (x :: y :: l) (String sep ""))
      with (x +:+ String sep (Join (y :: l) (String sep ""))).
    rewrite Split_app by done. by rewrite IH.
Qed.

Lemma parseSetting_setting (m : Values) (kv : string * string) :
  parseSetting m (setting kv) = addValue m kv.
Proof.
  destruct kv as [k x]. unfold parseSetting, setting, addValue. simpl.
  assert (ContainsByte (QueryEscape k +:+ "=" +:+ QueryEscape x) ";" = false) as ->.
  { rewrite !ContainsByte_app, !QueryEscape_clean by (unfold separator; auto). done. }
  assert (String.eqb (QueryEscape k +:+ "=" +:+ QueryEscape x) "" = false) as ->.
  { destruct (QueryEscape k); done. }
  change ("=" +:+ QueryEscape x) with (String "=" (QueryEscape x)).
  rewrite Cut_app by (apply QueryEscape_clean; unfold separator; auto).
  by rewrite !QueryUnescape_QueryEscape.
Qed.

Lemma fold_parseSetting (kvs : list (string * string)) (m : Values) :
  fold_left parseSetting (map setting kvs) m = fold_left addValue kvs m.
Proof.
  revert m. induction kvs as [|kv kvs IH]; intros m; [done|].
  simpl. by rewrite parseSetting_setting, IH.
Qed.

Lemma setting_clean (kv : string * string) : ContainsByte (setting kv) "&" = false.
Proof.
  unfold setting. rewrite !ContainsByte_app, !QueryEscape_clean by (unfold separator; auto).
  done.
Qed.

(** Parsing the settings of a list back. *)
Lemma ParseQuery_settings (kvs : list (string * string)) :
  ParseQuery (Join (map setting kvs) "&") = fold_left addValue kvs ∅.
Proof.
  unfold ParseQuery. destruct kvs as [|kv kvs]; [done|].
  rewrite (Split_Join (map setting (kv :: kvs)) "&").
  - apply fold_parseSetting.
  - done.
  - apply Forall_forall. intros s (kv' & -> & _)%list_elem_of_fmap. apply setting_clean.
Qed.

Lemma fold_addValue_key (k : string) (xs : list string) (m : Values) (k' : string) :
  fold_left addValue (map (pair k) xs) m !! k'
  = if decide (k' = k /\ xs <> []) then Some (default [] (m !! k') ++ xs) else m !! k'.
Proof.
  revert m. induction xs as [|x xs IH]; intros m.
  - cbn [map fold_left]. case_decide as H; [|done]. by destruct H as [_ ?].
  - cbn [map fold_left]. rewrite IH. unfold addValue. cbn [fst snd].
    destruct (decide (k' = k)) as [->|Hne].
    + rewrite lookup_insert_eq. simpl.
      rewrite (decide_True (P := k = k /\ x :: xs <> [])) by done.
      destruct xs as [|x' xs].
      * by rewrite decide_False by (by intros [_ ?]).
      * rewrite decide_True by done. by rewrite <- app_assoc.
    + rewrite lookup_insert_ne by done.
      rewrite !decide_False by (by intros [? _]). done.
Qed.

Lemma fold_addValue_keys (keys : list string) (f : string -> list string) (m : Values)
    (k' : string) :
  NoDup keys ->
  fold_left addValue (flat_map (fun k => map (pair k) (f k)) keys) m !! k'
  = if decide (k' ∈ keys /\ f k' <> []) then Some (default [] (m !! k') ++ f k')
    else m !! k'.
Proof.
  intros Hnodup. revert m.
  induction Hnodup as [|k keys Hk Hnodup IH]; intros m.
  - cbn [flat_map fold_left]. case_decide as H; [|done].
    by destruct H as [?%elem_of_nil _].
  - cbn [flat_map]. rewrite fold_left_app, IH, fold_addValue_key.
    destruct (decide (k' = k)) as [->|Hne].
    + rewrite (decide_False (P := k ∈ keys /\ _)) by (by intros [? _]).
      destruct (decide (f k = [])) as [E|E].
      * rewrite !decide_False; [done| |]; by intros [_ ?].
      * rewrite !decide_True; [done| |]; split; try done. apply elem_of_cons; by left.
    + rewrite (decide_False (P := k' = k /\ _)) by (by intros [? _]).
      destruct (decide (k' ∈ keys /\ f k' <> [])) as [[Hin Hf]|Hnot].
      * rewrite decide_True; [done|]. split; [|done]. apply elem_of_cons; by right.
      * rewrite decide_False; [done|]. intros [[?|?]%elem_of_cons ?]; [done|]. by apply Hnot.
Qed.

Lemma populated_parseSetting (m : Values) (s : string) :
  populated m -> populated (parseSetting m s).
Proof.
  intros Hm. unfold parseSetting.
  destruct (ContainsByte s ";"); [done|]. destruct (String.eqb s ""); [done|].
  destruct (Cut s "=") as [[key value] found].
  destruct (QueryUnescape key) as [k|]; [|done].
  destruct (QueryUnescape value) as [x|]; [|done].
  intros k'. destruct (decide (k' = k)) as [->|Hne].
  - rewrite lookup_insert_eq. intros [= H]. by destruct (default [] (m !! k)).
  - rewrite lookup_insert_ne by done. apply Hm.
Qed.

Lemma populated_ParseQuery (query : string) : populated (ParseQuery query).
Proof.
  unfold ParseQuery.
  assert (populated (∅ : Values)) as H0 by (intros k; by rewrite lookup_empty).
  revert H0. generalize (∅ : Values). induction (Split query "&") as [|s l IH]; intros m Hm.
  - done.
  - simpl. apply IH. by apply populated_parseSetting.
Qed.

Lemma populated_Del (v : Values) (key : string) : populated v -> populated (Del v key).
Proof.
  intros Hv k. unfold Del. destruct (decide (k = key)) as [->|Hne].
  - by rewrite lookup_delete_eq.
  - rewrite lookup_delete_ne by done. apply Hv.
Qed.

(** Encoding values and parsing the text back gives the values. *)
Lemma ParseQuery_Encode (v : Values) : populated v -> ParseQuery (Encode v) = v.
Proof.
  intros Hv. unfold Encode.
  set (keys := merge_sort String.le (map fst (map_to_list v))).
  assert (keys ≡ₚ map fst (map_to_list v)) as Hperm by apply merge_sort_Permutation.
  assert (NoDup keys) as Hnodup.
  { rewrite Hperm. apply NoDup_fst_map_to_list. }
  assert (flat_map
            (fun k => map (fun x => (QueryEscape k ++ "=" ++ QueryEscape x)%string)
                        (default [] (v !! k))) keys
          = map setting (flat_map (fun k => map (pair k) (default [] (v !! k))) keys)) as ->.
  { clear. induction keys as [|k keys IH]; [done|].
    simpl. rewrite map_app, IH, map_map. done. }
  rewrite ParseQuery_settings. apply map_eq. intros k.
  rewrite (fold_addValue_keys keys (fun k => default [] (v !! k))) by done.
  rewrite lookup_empty. simpl.
  destruct (v !! k) as [xs|] eqn:E; simpl.
  - rewrite decide_True; [done|]. split.
    + rewrite Hperm. apply list_elem_of_fmap. exists (k, xs). split; [done|].
      by apply elem_of_map_to_list.
    + intros ->. by apply (Hv k).
  - rewrite decide_False; [done|]. by intros [_ ?].
Qed.

End QueryStrings.

(** ** The database name and the dump arguments *)

(** C7: the database name is the path of the URL without its leading
    slash; when that is empty, the value of PGDATABASE; when that is
    empty too, the URL's user name; and the empty string otherwise. *)
Theorem C7_database_name_order (environ : gmap string string) (u : url.URL) :
  resolveDatabaseName environ u
  = firstNonEmpty [pathSegment u; os.Getenv environ "PGDATABASE"; userName u].
Proof.
  unfold resolveDatabaseName, firstNonEmpty, pathSegment, userName.
  destruct u as [scheme user host path query fragment].
  unfold url.Path, url.User.
  assert (forall s : string, String.eqb s "" = bool_decide (s = "")) as Heqb.
  { intros s. destruct (String.eqb_spec s "");
      [by rewrite bool_decide_eq_true_2|by rewrite bool_decide_eq_false_2]. }
  assert (default path (strings.stripPrefix "/" path)
          = match path with
            | String c r => if Ascii.eqb c "/" then r else path
            | EmptyString => path
            end) as ->.
  { destruct path as [|c r]; [done|].
    change (strings.stripPrefix "/" (String c r))
      with (if Ascii.eqb "/" c then Some r else None).
    rewrite (Ascii.eqb_sym "/"%char c). by destruct (Ascii.eqb c "/"). }
  set (name := match path with
               | String c r => if Ascii.eqb c "/" then r else path
               | EmptyString => path
               end).
  clearbody name. rewrite !Heqb, !filter_cons, filter_nil.
  generalize (os.Getenv environ "PGDATABASE"). intros override.
  destruct user as [ui|]; simpl;
    repeat first [case_bool_decide | case_decide]; simpl; congruence.
Qed.

Lemma schemaArgs_fold (schemas : list string) (args : list string) :
  fold_left
    (fun args schema =>
       let schema := strings.TrimSpace schema in
       if String.eqb schema "" then args else args ++ ["--schema"; schema])
    schemas args
  = args ++ flat_map (fun s => ["--schema"; s])
              (filter (fun s => s <> "") (map strings.TrimSpace schemas)).
Proof.
  revert args. induction schemas as [|s schemas IH]; intros args; simpl.
  - by rewrite app_nil_r.
  - rewrite IH, filter_cons.
    destruct (String.eqb_spec (strings.TrimSpace s) "") as [E|E].
    + rewrite decide_False by (intros H; by apply H). done.
    + rewrite decide_True by done. simpl. by rewrite <- app_assoc.
Qed.

(** C6: the dump arguments are one [--schema <name>] pair for every
    non-blank trimmed entry of the URL's search path, in order, and then
    the URL with a query string that parses to the settings of the
    original one without [search_path]. *)
Theorem C6_dump_arguments (URLString : url.URL -> string) (u : url.URL) :
  let settings := url.Del (url.Query u) "search_path" in
  connectionArgsForDump URLString u
  = flat_map (fun s => ["--schema"; s])
      (searchPathEntries (url.Get (url.Query u) "search_path"))
    ++ [URLString (url.withRawQuery u (url.Encode settings))]
  /\ url.Query (url.withRawQuery u (url.Encode settings)) = settings
  /\ settings !! "search_path" = None
  /\ (forall key, key <> "search_path" -> settings !! key = url.Query u !! key).
Proof.
  split; [|split; [|split]].
  - unfold connectionArgsForDump, cloneURL, schemaArgs, searchPathEntries.
    by rewrite schemaArgs_fold.
  - unfold url.Query at 1. simpl. apply ParseQuery_Encode, populated_Del, populated_ParseQuery.
  - apply lookup_delete_eq.
  - intros key Hkey. apply lookup_delete_ne. congruence.
Qed.

(** The search path of the specification's example, as it comes out of
    a query string, and the arguments derived from it. *)
Example dump_arguments_example :
  url.Get (url.Query (Mock.pgURL "/app" "sslmode=disable&search_path=%20a%20,+b,,c+")) "search_path"
  = " a , b,,c "
  /\ connectionArgsForDump Mock.urlString
       (Mock.pgURL "/app" "sslmode=disable&search_path=%20a%20,+b,,c+")
     = ["--schema"; "a"; "--schema"; "b"; "--schema"; "c";
        "postgres://localhost:5432/app?sslmode=disable"].
Proof. split; vm_compute; reflexivity. Qed.

(** ** Error signals *)

Lemma isCode_signalled (code : string) (err : error) :
  isCode code (errors.As err) = true <-> signalled code err.
Proof.
  unfold isCode, signalled. destruct (errors.As err) as [e|].
  - rewrite String.eqb_eq. split; [eauto|]. by intros (e' & [= <-] & ?).
  - split; [done|]. by intros (e' & [=] & ?).
Qed.

(** C5: [DatabaseExists] answers (true, nil) when the ping succeeds,
    (false, nil) when it fails with the "database does not exist"
    signal, and (false, err) with the ping's error otherwise. *)
Theorem C5_database_exists {DB : Type} (URLString : url.URL -> string)
    (sqlOpen : string -> DB + error) (dbPing : DB -> option error) (drv : Driver) :
  existsAnswer (ping URLString sqlOpen dbPing drv)
               (DatabaseExists URLString sqlOpen dbPing drv).
Proof.
  unfold DatabaseExists. destruct (ping _ _ _ drv) as [err|]; [|constructor].
  destruct (isCode "3D000" (errors.As err)) eqn:E.
  - constructor. by apply isCode_signalled.
  - constructor. rewrite <- isCode_signalled. by rewrite E.
Qed.

(** C9: the normalised failure carries the error and the query text it
    was given, and the position the engine supplied when the error is a
    [*pq.Error] whose position parses as an integer, 0 otherwise; a
    position the engine printed in decimal is read back as the number. *)
Theorem C9_query_error (query : string) (err : option error) :
  dbmate.Err (QueryError query err) = err
  /\ dbmate.Query (QueryError query err) = query
  /\ positionOf err (dbmate.Position (QueryError query err))
  /\ (forall e n, err = Some (PqError e) ->
        (0 <= n <= strconv.maxInt)%Z -> pq.Position e = strconv.Itoa n ->
        dbmate.Position (QueryError query err) = n).
Proof.
  split; [done|]. split; [done|]. split.
  - unfold QueryError; simpl.
    destruct err as [[e| |msg|msg inner]|]; simpl;
      try (apply position_absent; intros e' [=]).
    destruct (strconv.Atoi (pq.Position e)) as [n|] eqn:E;
      [by apply position_parsed|by apply position_unparsed].
  - intros e n -> Hn Hpos. unfold QueryError; simpl.
    rewrite Hpos, Atoi_Itoa; [done|]. unfold strconv.minInt, strconv.maxInt in *. lia.
Qed.

(** ** Resolution of the migrations table *)

Section Resolution.

Context {DB : Type} `{!sql.Transaction DB}.

(** The schema the table name and the URL give, before the server is
    asked: the first segment of a dotted name, else the first entry of
    the search path. *)
Lemma migrationsTableNameParts_run (drv : Driver) (w : World DB) :
  let name := migrationsTableName drv in
  let candidate :=
    if strings.ContainsByte name "." && negb (String.eqb (firstSegment name) "")
    then firstSegment name
    else searchPathSchema (databaseURL drv) in
  migrationsTableNameParts drv w =
    if String.eqb candidate "" then
      let '((current, err), db) := sql.QueryValue "select current_schema()" [] (conn w) in
      let w' := after w (sql.CallQuery "select current_schema()" []) db in
      match err with
      | Some _ => (Some ("", [], err), w')
      | None =>
          (Some (if String.eqb current "" then "public" else current,
                 tableSegments name, None), w')
      end
    else (Some (candidate, tableSegments name, None), w).
Proof.
  intros name candidate. subst candidate.
  unfold migrationsTableNameParts, tableSegments, firstSegment, searchPathSchema.
  fold name. rewrite Split_one_iff.
  destruct (Split_cons name ".") as (f & fs & Ename).
  destruct (Split_cons (url.Get (url.Query (databaseURL drv)) "search_path") ",")
    as (p & ps & Epath).
  rewrite Ename, Epath. unfold_run. simpl.
  destruct (strings.ContainsByte name "."); simpl.
  - destruct (String.eqb f "") eqn:Ef; simpl.
    + change (String.eqb "" "") with true. cbv iota.
      destruct (String.eqb (strings.TrimSpace p) "") eqn:Ep; simpl; [|by rewrite Ep].
      unfold after. destruct (sql.QueryValue _ _ _) as [[current [e|]] db]; done.
    + by rewrite !Ef.
  - change (String.eqb "" "") with true. cbv iota.
    destruct (String.eqb (strings.TrimSpace p) "") eqn:Ep; simpl; [|by rewrite Ep].
    unfold after. destruct (sql.QueryValue _ _ _) as [[current [e|]] db]; done.
Qed.


Lemma eqb_empty_false (s : string) : s <> "" -> String.eqb s "" = false.
Proof. intros Hs. by destruct (String.eqb_spec s ""). Qed.

(** C1 (amended): a dotted table name whose first segment is not empty
    fixes the schema to that segment, whatever the search path and the
    server say, and the server is not asked; for any other name the
    schema is the first entry of the URL's search path, trimmed; if that
    is empty, the server's current schema; if that is empty too,
    "public".  A failure of the current-schema query is returned. *)
Theorem C1_schema_precedence (drv : Driver) (w : World DB) :
  let name := migrationsTableName drv in
  let first := firstSegment name in
  let fromURL := searchPathSchema (databaseURL drv) in
  let ask := sql.CallQuery "select current_schema()" [] in
  (strings.ContainsByte name "." = true -> first <> "" ->
     migrationsTableNameParts drv w = (Some (first, tableSegments name, None), w))
  /\ (strings.ContainsByte name "." = false \/ first = "" -> fromURL <> "" ->
       migrationsTableNameParts drv w = (Some (fromURL, tableSegments name, None), w))
  /\ (strings.ContainsByte name "." = false \/ first = "" -> fromURL = "" ->
       forall current err db,
         sql.QueryValue "select current_schema()" [] (conn w) = ((current, err), db) ->
         migrationsTableNameParts drv w =
           match err with
           | Some _ => (Some ("", [], err), after w ask db)
           | None =>
               (Some (if decide (current = "") then "public" else current,
                      tableSegments name, None), after w ask db)
           end).
Proof.
  intros name first fromURL ask.
  pose proof (migrationsTableNameParts_run drv w) as Hrun. simpl in Hrun.
  fold name first fromURL in Hrun.
  split; [|split].
  - intros Hdot Hfirst. rewrite Hrun, Hdot, !(eqb_empty_false first) by done.
    simpl. by rewrite (eqb_empty_false first).
  - intros Hname Hurl. rewrite Hrun.
    assert (strings.ContainsByte name "." && negb (String.eqb first "") = false) as ->.
    { destruct Hname as [-> | ->]; [done|]. by rewrite andb_false_r. }
    by rewrite (eqb_empty_false fromURL).
  - intros Hname Hurl current err db Hask. rewrite Hrun.
    assert (strings.ContainsByte name "." && negb (String.eqb first "") = false) as ->.
    { destruct Hname as [-> | ->]; [done|]. by rewrite andb_false_r. }
    rewrite Hurl. change (String.eqb "" "") with true. cbv iota.
    rewrite Hask. destruct err; [done|].
    destruct (String.eqb_spec current "");
      [by rewrite decide_True|by rewrite decide_False].
Qed.

(** C8: the resolution always returns, and the schema of a resolution
    that returned no error is not the empty string. *)
Theorem C8_schema_never_empty (drv : Driver) (w : World DB) :
  exists schema parts err w',
    migrationsTableNameParts drv w = (Some (schema, parts, err), w')
    /\ (err = None -> schema <> "").
Proof.
  rewrite migrationsTableNameParts_run.
  set (candidate := if _ && _ then _ else _). clearbody candidate.
  destruct (String.eqb_spec candidate "") as [E|E].
  - destruct (sql.QueryValue _ _ _) as [[current [e|]] db].
    + eexists _, _, _, _. split; [done|]. done.
    + eexists _, _, _, _. split; [done|]. intros _.
      by destruct (String.eqb_spec current "").
  - eexists _, _, _, _. split; [done|]. done.
Qed.

End Resolution.

(** C1 as it is stated fails on a table name that starts with a dot: its
    first segment is empty, and the schema comes from the search path. *)
Lemma C1_counterexample :
  ~ (forall (drv : Driver) (w : World Mock.DB) schema parts w',
       strings.ContainsByte (migrationsTableName drv) "." = true ->
       migrationsTableNameParts drv w = (Some (schema, parts, None), w') ->
       schema = hd "" (strings.Split (migrationsTableName drv) ".")).
Proof.
  intros H.
  specialize (H (searchPathDriver ".t") (server [] []) "foo" ["t"] _ eq_refl eq_refl).
  discriminate H.
Qed.

(** ** The ledger operations *)

Section Ledger.

Context {DB : Type} `{!sql.Transaction DB}.

Import sql.

Lemma append_empty_r (s : string) : s +:+ "" = s.
Proof.
  induction s as [|c s IH]; [done|].
  change (String c (s +:+ "") = String c s). by rewrite IH.
Qed.

(** The quoted parts, once the table is resolved and the server has
    answered the quoting query. *)
Lemma quotedMigrationsTableNameParts_run (drv : Driver) (w w1 : World DB)
    (schema : string) (parts : list string) :
  migrationsTableNameParts drv w = (Some (schema, parts, None), w1) ->
  quotedMigrationsTableNameParts drv w =
    let '((quoted, err), db) := QueryColumn quoteQuery [ArrayArg (schema :: parts)] (conn w1) in
    let w2 := after w1 (CallQuery quoteQuery [ArrayArg (schema :: parts)]) db in
    match err, quoted with
    | Some _, _ => (Some ("", "", err), w2)
    | None, q :: qs => (Some (q, strings.Join qs ".", None), w2)
    | None, [] => (None, w2)
    end.
Proof.
  intros Hparts. unfold quotedMigrationsTableNameParts. unfold_run. rewrite Hparts.
  simpl. unfold quoteQuery, after.
  destruct (QueryColumn _ _ _) as [[quoted [e|]] db]; [done|].
  destruct quoted as [|q qs]; done.
Qed.

Lemma quotedMigrationsTableName_run (drv : Driver) (w : World DB) :
  quotedMigrationsTableName drv w =
    match quotedMigrationsTableNameParts drv w with
    | (Some (schema, name, None), w1) => (Some (schema +:+ "." +:+ name, None), w1)
    | (Some (_, _, Some e), w1) => (Some ("", Some e), w1)
    | (None, w1) => (None, w1)
    end.
Proof.
  unfold quotedMigrationsTableName. unfold_run.
  destruct (quotedMigrationsTableNameParts drv w) as [[[[schema name] [e|]]|] w1]; done.
Qed.

(** C10 (amended): for a table name of three segments or more whose
    first segment is not empty, the existence check asks the catalog for
    one row with the first segment as [table_schema] and the other
    segments joined by a dot as [table_name]; the quoted identity has
    the other segments quoted one by one and the quoted segments joined
    by a dot. *)
Theorem C10_catalog_name_and_quoted_name (drv : Driver) (w : World DB)
    (first : string) (others : list string) :
  strings.Split (migrationsTableName drv) "." = first :: others ->
  (2 <= length others)%nat ->
  first <> "" ->
  (exists answer db,
     MigrationsTableExists drv w
     = (Some answer,
        after w (CallQuery catalogQuery
                   [StringArg first; StringArg (strings.Join others ".")]) db))
  /\ (forall quote db,
        QueryColumn quoteQuery [ArrayArg (first :: others)] (conn w)
        = ((map quote (first :: others), None), db) ->
        quotedMigrationsTableNameParts drv w
        = (Some (quote first, strings.Join (map quote others) ".", None),
           after w (CallQuery quoteQuery [ArrayArg (first :: others)]) db)).
Proof.
  intros Hsplit Hlen Hfirst.
  assert (strings.ContainsByte (migrationsTableName drv) "." = true) as Hdot.
  { rewrite <- Split_one_iff, Hsplit. destruct others; [simpl in Hlen; lia|done]. }
  pose proof (migrationsTableNameParts_run drv w) as Hparts. simpl in Hparts.
  unfold firstSegment, tableSegments in Hparts. rewrite Hdot, Hsplit in Hparts.
  simpl in Hparts. rewrite !(eqb_empty_false first) in Hparts by done.
  simpl in Hparts. rewrite (eqb_empty_false first) in Hparts by done.
  split.
  - unfold MigrationsTableExists. unfold_run. rewrite Hparts. simpl.
    change ("SELECT 1 FROM information_schema.tables "
            +:+ "WHERE  table_schema = $1 " +:+ "AND    table_name   = $2")
      with catalogQuery.
    unfold after.
    destruct (QueryRowBool _ _ _) as [[found err] db].
    destruct (isErrNoRows err); eauto.
  - intros quote db Hquote.
    rewrite (quotedMigrationsTableNameParts_run drv w w first others Hparts), Hquote.
    done.
Qed.


(** C2 (amended): once the quoted identity is resolved, the table is
    created with one statement; only when that fails with the "schema
    does not exist" signal is the schema created, and only when the
    schema creation succeeds is the table statement sent a second and
    last time, its result returned as it is.  A first failure of any
    other kind, and a failure of the schema creation, are returned as
    they are with nothing more sent. *)
Theorem C2_create_with_one_retry (drv : Driver) (w w1 : World DB) (schema table : string)
    (first made second : option error) (db1 db2 db3 : DB) :
  let createTable :=
    "create table if not exists " +:+ schema +:+ "." +:+ table
    +:+ " (version varchar(128) primary key)" in
  let createSchema := "create schema if not exists " +:+ schema in
  let w2 := after w1 (CallExec createTable []) db1 in
  let w3 := after (afterLog w2 ("Creating schema: " +:+ schema +:+ LF))
              (CallExec createSchema []) db2 in
  let w4 := after w3 (CallExec createTable []) db3 in
  quotedMigrationsTableNameParts drv w = (Some (schema, table, None), w1) ->
  Exec createTable [] (conn w1) = (first, db1) ->
  Exec createSchema [] db1 = (made, db2) ->
  Exec createTable [] db2 = (second, db3) ->
  (first = None -> CreateMigrationsTable drv w = (Some None, w2))
  /\ (forall e, first = Some e -> ~ signalledDirectly "3F000" e ->
        CreateMigrationsTable drv w = (Some (Some e), w2))
  /\ (forall e e', first = Some e -> signalledDirectly "3F000" e -> made = Some e' ->
        CreateMigrationsTable drv w = (Some (Some e'), w3))
  /\ (forall e, first = Some e -> signalledDirectly "3F000" e -> made = None ->
        CreateMigrationsTable drv w = (Some second, w4)).
Proof.
  intros createTable createSchema w2 w3 w4 Hquoted Hfirst Hmade Hsecond.
  assert (forall e, isCode "3F000" (assertPqError (Some e)) = true
                    <-> signalledDirectly "3F000" e) as Hsignal.
  { intros e. unfold signalledDirectly. destruct e as [e| |msg|msg inner]; simpl.
    - rewrite String.eqb_eq. split; [eauto|]. by intros (e' & [= <-] & ?).
    - split; [done|]. by intros (e' & [=] & ?).
    - split; [done|]. by intros (e' & [=] & ?).
    - split; [done|]. by intros (e' & [=] & ?). }
  unfold CreateMigrationsTable. unfold_run. rewrite Hquoted. simpl.
  unfold createTableStmt, createSchemaStmt. fold createTable createSchema.
  rewrite Hfirst. simpl.
  repeat split.
  - by intros ->.
  - intros e -> Hother.
    destruct (isCode "3F000" (assertPqError (Some e))) eqn:E; [|done].
    by apply Hsignal in E.
  - intros e e' -> Hmissing ->. apply Hsignal in Hmissing. rewrite Hmissing. simpl.
    by rewrite Hmade.
  - intros e -> Hmissing ->. apply Hsignal in Hmissing. rewrite Hmissing. simpl.
    rewrite Hmade. simpl. by rewrite Hsecond.
Qed.


(** C3 (amended): the ledger section of a dump is the comment block made
    of an empty line, the lines "--", "-- Dbmate schema migrations" and
    "--", and an empty line; nothing follows it when no version is
    applied, and otherwise one INSERT statement follows, with one row
    for each applied version, as the literal the server quoted, in
    ascending order of the versions. *)
Theorem C3_ledger_script (drv : Driver) (w w1 : World DB) (T : string)
    (quote : string -> string) (ascending : list string) (db : DB) :
  let query := "select quote_literal(version) from " +:+ T +:+ " order by version asc" in
  quotedMigrationsTableName drv w = (Some (T, None), w1) ->
  QueryColumn query [] (conn w1) = ((map quote ascending, None), db) ->
  schemaMigrationsDump drv w
  = (Some (LF +:+ "--" +:+ LF +:+ "-- Dbmate schema migrations" +:+ LF +:+ "--" +:+ LF +:+ LF
           +:+ match ascending with
               | [] => ""
               | _ :: _ =>
                   "INSERT INTO " +:+ T +:+ " (version) VALUES" +:+ LF
                   +:+ "    (" +:+ strings.Join (map quote ascending) (")," +:+ LF +:+ "    (")
                   +:+ ");" +:+ LF
               end, None),
     after w1 (CallQuery query []) db).
Proof.
  intros query Hname Hrows.
  unfold schemaMigrationsDump. unfold_run. rewrite Hname. simpl.
  fold query. rewrite Hrows. simpl. unfold after, migrationsHeader.
  destruct ascending as [|v vs]; simpl.
  - rewrite <- !append_assoc, append_empty_r. done.
  - rewrite <- !append_assoc. done.
Qed.

Lemma scanVersions_rows (rows : list string) (m : gmap string bool) :
  exists m',
    scanVersions (map inl rows) m = (m', None)
    /\ (forall v, m' !! v = if decide (v ∈ rows) then Some true else m !! v)
    /\ size m' <= size m + length rows.
Proof.
  revert m. induction rows as [|r rows IH]; intros m; cbn [map scanVersions length].
  - exists m. split; [done|]. split; [|lia].
    intros v. case_decide as Hin; [by apply elem_of_nil in Hin|done].
  - destruct (IH (<[r := true]> m)) as (m' & Hscan & Hlookup & Hsize).
    exists m'. split; [done|]. split.
    + intros v. rewrite Hlookup.
      destruct (decide (v ∈ rows)) as [Hin|Hin];
        destruct (decide (v ∈ r :: rows)) as [Hin'|Hin']; [done| | |].
      * exfalso. apply Hin', elem_of_cons. by right.
      * apply elem_of_cons in Hin' as [->|?]; [|done]. apply lookup_insert_eq.
      * apply lookup_insert_ne. intros ->. apply Hin', elem_of_cons. by left.
    + pose proof (map_size_insert r true m) as Hins.
      destruct (m !! r); simpl in Hins; unfold id in Hins; simpl; lia.
Qed.



End Ledger.

(** ** Concrete runs against the scripted server *)

Lemma C1_witness :
  strings.ContainsByte (migrationsTableName (searchPathDriver "s.t")) "." = true
  /\ firstSegment (migrationsTableName (searchPathDriver "s.t")) <> ""
  /\ migrationsTableNameParts (searchPathDriver "s.t") (server [] [])
     = (Some ("s", ["t"], None), server [] []).
Proof.
  split; [reflexivity|]. split; [discriminate|].
  apply (proj1 (C1_schema_precedence (searchPathDriver "s.t") (server [] [])));
    [reflexivity|discriminate].
Defined.

Lemma C9_witness :
  dbmate.Position
    (QueryError "select 1 frm t"
       (Some (PqError {| pq.Code := "42601"; pq.Message := "syntax error"; pq.Position := "10" |})))
  = 10%Z.
Proof.
  apply (proj2 (proj2 (proj2 (C9_query_error "select 1 frm t" _))) _ 10%Z eq_refl);
    [vm_compute; split; discriminate|reflexivity].
Defined.

Lemma C10_witness :
  strings.Split (migrationsTableName (dottedDriver "a.b.c")) "." = ["a"; "b"; "c"]
  /\ (exists answer db,
        MigrationsTableExists (dottedDriver "a.b.c") (server [] [])
        = (Some answer,
           after (server [] [])
             (sql.CallQuery catalogQuery [sql.StringArg "a"; sql.StringArg "b.c"]) db))
  /\ fst (quotedMigrationsTableNameParts (dottedDriver "a.b.c") (server [] []))
     = Some (Mock.quoteIdent "a", Mock.quoteIdent "b" +:+ "." +:+ Mock.quoteIdent "c", None).
Proof.
  destruct (C10_catalog_name_and_quoted_name (dottedDriver "a.b.c") (server [] [])
              "a" ["b"; "c"] eq_refl (le_n 2) ltac:(discriminate)) as [Hcatalog Hquoted].
  split; [reflexivity|]. split; [exact Hcatalog|].
  rewrite (Hquoted Mock.quoteIdent _ eq_refl). reflexivity.
Defined.

(** C10 as it is stated fails on a name whose first segment is empty:
    the catalog is asked for the schema the resolution fell back to. *)
Lemma C10_counterexample :
  ~ (forall (drv : Driver) (w : World Mock.DB) (first : string) (others : list string),
       strings.Split (migrationsTableName drv) "." = first :: others ->
       (2 <= length others)%nat ->
       exists answer db,
         MigrationsTableExists drv w
         = (Some answer,
            after w (sql.CallQuery catalogQuery
                       [sql.StringArg first; sql.StringArg (strings.Join others ".")]) db)).
Proof.
  intros H.
  destruct (H (dottedDriver ".b.c") (server [] []) "" ["b"; "c"] eq_refl (le_n 2))
    as (answer & db & Hrun).
  vm_compute in Hrun. discriminate Hrun.
Qed.

Example exists_check_empty_first_segment :
  sent (snd (MigrationsTableExists (dottedDriver ".b.c") (server [] [])))
  = [sql.CallQuery "select current_schema()" [];
     sql.CallQuery catalogQuery [sql.StringArg "public"; sql.StringArg "b.c"]].
Proof. vm_compute. reflexivity. Qed.

Lemma C2_witness :
  quotedMigrationsTableNameParts ledgerDriver retryServer
  = (Some (Mock.quoteIdent "public", Mock.quoteIdent "schema_migrations", None),
     snd (quotedMigrationsTableNameParts ledgerDriver retryServer))
  /\ fst (CreateMigrationsTable ledgerDriver retryServer) = Some None
  /\ logged (snd (CreateMigrationsTable ledgerDriver retryServer))
     = ["Creating schema: " +:+ Mock.quoteIdent "public" +:+ LF].
Proof.
  split; [vm_compute; reflexivity|].
  destruct (C2_create_with_one_retry ledgerDriver retryServer
              (snd (quotedMigrationsTableNameParts ledgerDriver retryServer))
              (Mock.quoteIdent "public") (Mock.quoteIdent "schema_migrations")
              (Some Mock.schemaMissing) None None
              (Mock.mkDB ("public", None) [None; None] ledgerName [] false)
              (Mock.mkDB ("public", None) [None] ledgerName [] false)
              (Mock.mkDB ("public", None) [] ledgerName [] false))
    as (_ & _ & _ & Hretry); [vm_compute; reflexivity ..|].
  rewrite (Hretry Mock.schemaMissing eq_refl
             (ex_intro _ _ (conj eq_refl eq_refl)) eq_refl).
  split; vm_compute; reflexivity.
Defined.

(** C2 as it is stated fails when the schema cannot be created: the
    table statement is not sent again. *)
Lemma C2_counterexample :
  ~ (forall (drv : Driver) (w w1 : World Mock.DB) (schema table : string)
            (e : error) (db1 : Mock.DB),
       quotedMigrationsTableNameParts drv w = (Some (schema, table, None), w1) ->
       sql.Exec (createTableStmt schema table) [] (conn w1) = (Some e, db1) ->
       signalledDirectly "3F000" e ->
       exists result w',
         CreateMigrationsTable drv w = (Some result, w')
         /\ sent w' = sent w1 ++ [sql.CallExec (createTableStmt schema table) [];
                                  sql.CallExec (createSchemaStmt schema) [];
                                  sql.CallExec (createTableStmt schema table) []]).
Proof.
  intros H.
  destruct (H ledgerDriver refusingServer
              (snd (quotedMigrationsTableNameParts ledgerDriver refusingServer))
              (Mock.quoteIdent "public") (Mock.quoteIdent "schema_migrations")
              Mock.schemaMissing
              (Mock.mkDB ("public", None) [Some Mock.permissionDenied; None] ledgerName [] false))
    as (result & w' & Hrun & Hsent);
    [vm_compute; reflexivity | vm_compute; reflexivity
    | exact (ex_intro _ _ (conj eq_refl eq_refl)) |].
  vm_compute in Hrun. injection Hrun as _ <-.
  vm_compute in Hsent. discriminate Hsent.
Qed.

Example create_refused :
  CreateMigrationsTable ledgerDriver refusingServer
  = (Some (Some Mock.permissionDenied),
     {| conn := Mock.mkDB ("public", None) [None] ledgerName [] false;
        sent := [sql.CallQuery "select current_schema()" [];
                 sql.CallQuery quoteQuery [sql.ArrayArg ["public"; "schema_migrations"]];
                 sql.CallExec (createTableStmt (Mock.quoteIdent "public")
                                 (Mock.quoteIdent "schema_migrations")) [];
                 sql.CallExec (createSchemaStmt (Mock.quoteIdent "public")) []];
        logged := ["Creating schema: " +:+ Mock.quoteIdent "public" +:+ LF] |}).
Proof. vm_compute. reflexivity. Qed.

Lemma C3_witness :
  fst (quotedMigrationsTableName ledgerDriver (server [] ["20230101"; "20230102"]))
  = Some (ledgerName, None)
  /\ fst (schemaMigrationsDump ledgerDriver (server [] ["20230101"; "20230102"]))
     = Some (LF +:+ "--" +:+ LF +:+ "-- Dbmate schema migrations" +:+ LF +:+ "--" +:+ LF +:+ LF
             +:+ "INSERT INTO " +:+ ledgerName +:+ " (version) VALUES" +:+ LF
             +:+ "    ('20230101')," +:+ LF
             +:+ "    ('20230102');" +:+ LF, None).
Proof.
  split; [vm_compute; reflexivity|].
  rewrite (C3_ledger_script ledgerDriver (server [] ["20230101"; "20230102"])
             (snd (quotedMigrationsTableName ledgerDriver (server [] ["20230101"; "20230102"])))
             ledgerName Mock.quoteLiteral ["20230101"; "20230102"]
             (Mock.mkDB ("public", None) [] ledgerName ["20230101"; "20230102"] false));
    [vm_compute; reflexivity ..].
Defined.

(** C3 as it is stated fails: the section does not begin with the one
    line "-- Dbmate schema migrations --" but with an empty line and a
    comment block of three lines. *)
Lemma C3_counterexample :
  ~ (forall (drv : Driver) (w : World Mock.DB) (out : string) (w' : World Mock.DB),
       schemaMigrationsDump drv w = (Some (out, None), w') ->
       exists rest, out = "-- Dbmate schema migrations --" +:+ rest).
Proof.
  intros H.
  destruct (H ledgerDriver (server [] [])
              (LF +:+ "--" +:+ LF +:+ "-- Dbmate schema migrations" +:+ LF +:+ "--" +:+ LF +:+ LF)
              (snd (schemaMigrationsDump ledgerDriver (server [] []))))
    as (rest & Hout); [vm_compute; reflexivity|].
  vm_compute in Hout. discriminate Hout.
Qed.

Example dump_without_versions :
  fst (schemaMigrationsDump ledgerDriver (server [] []))
  = Some (LF +:+ "--" +:+ LF +:+ "-- Dbmate schema migrations" +:+ LF +:+ "--" +:+ LF +:+ LF, None).
Proof. vm_compute. reflexivity. Qed.



Example select_all_versions :
  (fun m => (size m, m !! "20230101", m !! "20230102", m !! "20230103"))
    <$> (fst <$> fst (SelectMigrations ledgerDriver (-1) (server [] threeVersions)))
  = Some (3, Some true, Some true, Some true).
Proof. vm_compute. reflexivity. Qed.

(** ** The other operations of the driver *)

Section ReadOnly.

Context {DB : Type} `{!sql.Transaction DB}.

Import sql.

Lemma queriesOnly_refl (n : nat) (w : World DB) : queriesOnly n w w.
Proof.
  split; [done|]. exists []. rewrite app_nil_r. repeat split; [constructor|simpl; lia].
Qed.

Lemma queriesOnly_after (n : nat) (w : World DB) (text : string) (args : list arg) (db : DB) :
  queriesOnly (S n) w (after w (CallQuery text args) db).
Proof.
  split; [done|]. exists [CallQuery text args].
  repeat split; [by repeat constructor|simpl; lia].
Qed.

Lemma queriesOnly_trans (n m : nat) (w1 w2 w3 : World DB) :
  queriesOnly n w1 w2 -> queriesOnly m w2 w3 -> queriesOnly (n + m) w1 w3.
Proof.
  intros (Hlog1 & c1 & Hsent1 & Hq1 & Hlen1) (Hlog2 & c2 & Hsent2 & Hq2 & Hlen2).
  split; [congruence|]. exists (c1 ++ c2).
  rewrite Hsent2, Hsent1, <- app_assoc. repeat split.
  - by apply Forall_app.
  - rewrite length_app. lia.
Qed.

Lemma queriesOnly_le (n m : nat) (w w' : World DB) :
  n <= m -> queriesOnly n w w' -> queriesOnly m w w'.
Proof.
  intros Hle (Hlog & calls & Hsent & Hq & Hlen). split; [done|].
  exists calls. repeat split; [done..|lia].
Qed.

Lemma migrationsTableNameParts_reads (drv : Driver) (w : World DB) :
  queriesOnly 1 w (snd (migrationsTableNameParts drv w)).
Proof.
  rewrite migrationsTableNameParts_run.
  destruct (String.eqb _ ""); [|apply queriesOnly_le with 0; [lia|apply queriesOnly_refl]].
  destruct (QueryValue _ _ _) as [[current [e|]] db]; apply queriesOnly_after.
Qed.

Lemma quotedMigrationsTableNameParts_reads (drv : Driver) (w : World DB) :
  queriesOnly 2 w (snd (quotedMigrationsTableNameParts drv w)).
Proof.
  pose proof (migrationsTableNameParts_reads drv w) as Hparts.
  unfold quotedMigrationsTableNameParts. unfold_run.
  destruct (migrationsTableNameParts drv w) as [[[[schema parts] [e|]]|] w1]; simpl in *;
    try (apply queriesOnly_le with 1; [lia|done]).
  destruct (QueryColumn _ _ _) as [[quoted [e|]] db]; simpl.
  - apply (queriesOnly_trans 1 1 _ w1); [done|]. apply (queriesOnly_after 0 w1).
  - destruct quoted as [|q qs]; simpl;
      (apply (queriesOnly_trans 1 1 _ w1); [done|]; apply (queriesOnly_after 0 w1)).
Qed.

Lemma quotedMigrationsTableName_reads (drv : Driver) (w : World DB) :
  queriesOnly 2 w (snd (quotedMigrationsTableName drv w)).
Proof.
  pose proof (quotedMigrationsTableNameParts_reads drv w) as Hparts.
  rewrite quotedMigrationsTableName_run.
  destruct (quotedMigrationsTableNameParts drv w) as [[[[schema name] [e|]]|] w1]; done.
Qed.

(** X1: checking for the ledger table, listing the applied versions and
    building the ledger script only read: whatever the server answers,
    each sends at most three calls, all of them queries, executes no
    statement and writes nothing to the log. *)
Theorem X1_reading_operations_only_query (drv : Driver) (limit : Z) (w : World DB) :
  queriesOnly 3 w (snd (MigrationsTableExists drv w))
  /\ queriesOnly 3 w (snd (SelectMigrations drv limit w))
  /\ queriesOnly 3 w (snd (schemaMigrationsDump drv w)).
Proof.
  split; [|split].
  - pose proof (migrationsTableNameParts_reads drv w) as Hparts.
    unfold MigrationsTableExists. unfold_run.
    destruct (migrationsTableNameParts drv w) as [[[[schema parts] [e|]]|] w1]; simpl in *;
      try (apply queriesOnly_le with 1; [lia|done]).
    destruct (QueryRowBool _ _ _) as [[found err] db]; simpl.
    apply (queriesOnly_trans 1 2 _ w1); [done|].
    destruct (isErrNoRows err); apply (queriesOnly_after 1 w1).
  - pose proof (quotedMigrationsTableName_reads drv w) as Hname.
    unfold SelectMigrations. unfold_run.
    destruct (quotedMigrationsTableName drv w) as [[[T [e|]]|] w1]; simpl in *;
      try (apply queriesOnly_le with 2; [lia|done]).
    destruct (Query _ _ _) as [[rows err] db]; simpl.
    apply (queriesOnly_trans 2 1 _ w1); [done|].
    destruct err; [apply (queriesOnly_after 0 w1)|].
    destruct (scanVersions _ _) as [m [e|]]; [apply (queriesOnly_after 0 w1)|].
    destruct (rowsErr rows); apply (queriesOnly_after 0 w1).
  - pose proof (quotedMigrationsTableName_reads drv w) as Hname.
    unfold schemaMigrationsDump. unfold_run.
    destruct (quotedMigrationsTableName drv w) as [[[T [e|]]|] w1]; simpl in *;
      try (apply queriesOnly_le with 2; [lia|done]).
    destruct (QueryColumn _ _ _) as [[rows err] db]; simpl.
    apply (queriesOnly_trans 2 1 _ w1); [done|].
    destruct err; apply (queriesOnly_after 0 w1).
Qed.

End ReadOnly.

Section Failures.

Context {DB : Type} `{!sql.Transaction DB}.

Import sql.

Lemma bind_name_error (drv : Driver) (w w1 : World DB) (schema name : string) (e : error) :
  quotedMigrationsTableNameParts drv w = (Some (schema, name, Some e), w1) ->
  quotedMigrationsTableName drv w = (Some ("", Some e), w1).
Proof. intros Hq. by rewrite quotedMigrationsTableName_run, Hq. Qed.

Lemma migrationsTableNameParts_returns (drv : Driver) (w : World DB) :
  exists schema parts err w1,
    migrationsTableNameParts drv w = (Some (schema, parts, err), w1).
Proof.
  rewrite migrationsTableNameParts_run.
  destruct (String.eqb _ ""); [|eauto 6].
  destruct (QueryValue _ _ _) as [[current [e|]] db]; eauto 6.
Qed.

(** The five operations that start from the quoted identity, when it
    could not be resolved. *)
Lemma quoted_identity_error (drv : Driver) (w w1 : World DB) (schema name : string)
    (e : error) (version : string) (limit : Z) :
  quotedMigrationsTableNameParts drv w = (Some (schema, name, Some e), w1) ->
  CreateMigrationsTable drv w = (Some (Some e), w1)
  /\ SelectMigrations drv limit w = (Some (∅, Some e), w1)
  /\ InsertMigration drv version w = (Some (Some e), w1)
  /\ DeleteMigration drv version w = (Some (Some e), w1)
  /\ schemaMigrationsDump drv w = (Some ("", Some e), w1).
Proof.
  intros Hparts. pose proof (bind_name_error _ _ _ _ _ _ Hparts) as Hname.
  repeat split.
  - unfold CreateMigrationsTable. unfold_run. by rewrite Hparts.
  - unfold SelectMigrations. unfold_run. by rewrite Hname.
  - unfold InsertMigration. unfold_run. by rewrite Hname.
  - unfold DeleteMigration. unfold_run. by rewrite Hname.
  - unfold schemaMigrationsDump. unfold_run. by rewrite Hname.
Qed.

(** X2: when the schema has to be asked of the server (the table name
    gives none and the URL's search path gives none) and that query
    fails, every ledger operation returns the query's error as it is,
    with an empty result, and sends nothing after the failed query. *)
Theorem X2_schema_lookup_failure (drv : Driver) (w : World DB) (current : string)
    (e : error) (db : DB) (version : string) (limit : Z) :
  let w1 := after w (CallQuery "select current_schema()" []) db in
  strings.ContainsByte (migrationsTableName drv) "." = false
    \/ firstSegment (migrationsTableName drv) = "" ->
  searchPathSchema (databaseURL drv) = "" ->
  QueryValue "select current_schema()" [] (conn w) = ((current, Some e), db) ->
  MigrationsTableExists drv w = (Some (false, Some e), w1)
  /\ CreateMigrationsTable drv w = (Some (Some e), w1)
  /\ SelectMigrations drv limit w = (Some (∅, Some e), w1)
  /\ InsertMigration drv version w = (Some (Some e), w1)
  /\ DeleteMigration drv version w = (Some (Some e), w1)
  /\ schemaMigrationsDump drv w = (Some ("", Some e), w1).
Proof.
  intros w1 Hname Hpath Hask.
  assert (migrationsTableNameParts drv w = (Some ("", [], Some e), w1)) as Hparts.
  { rewrite migrationsTableNameParts_run.
    assert (strings.ContainsByte (migrationsTableName drv) "."
            && negb (String.eqb (firstSegment (migrationsTableName drv)) "") = false) as ->.
    { destruct Hname as [-> | ->]; [done|]. by rewrite andb_false_r. }
    rewrite Hpath. change (String.eqb "" "") with true. cbv iota. by rewrite Hask. }
  split.
  - unfold MigrationsTableExists. unfold_run. by rewrite Hparts.
  - apply (quoted_identity_error drv w w1 "" "").
    unfold quotedMigrationsTableNameParts. unfold_run. by rewrite Hparts.
Qed.

(** X3: when the table is resolved but the quoting query fails, creating
    the table, listing, inserting, deleting and building the ledger
    script return the query's error as it is and send nothing after it:
    no statement is executed. *)
Theorem X3_quoting_failure (drv : Driver) (w w1 : World DB) (schema : string)
    (parts quoted : list string) (e : error) (db : DB) (version : string) (limit : Z) :
  let w2 := after w1 (CallQuery quoteQuery [ArrayArg (schema :: parts)]) db in
  migrationsTableNameParts drv w = (Some (schema, parts, None), w1) ->
  QueryColumn quoteQuery [ArrayArg (schema :: parts)] (conn w1) = ((quoted, Some e), db) ->
  CreateMigrationsTable drv w = (Some (Some e), w2)
  /\ SelectMigrations drv limit w = (Some (∅, Some e), w2)
  /\ InsertMigration drv version w = (Some (Some e), w2)
  /\ DeleteMigration drv version w = (Some (Some e), w2)
  /\ schemaMigrationsDump drv w = (Some ("", Some e), w2).
Proof.
  intros w2 Hparts Hquote.
  apply (quoted_identity_error drv w w2 "" "").
  by rewrite (quotedMigrationsTableNameParts_run drv w w1 schema parts Hparts), Hquote.
Qed.

(** The five operations that start from the quoted identity, when its
    resolution panicked. *)
Lemma quoted_identity_panic (drv : Driver) (w w1 : World DB) (version : string) (limit : Z) :
  quotedMigrationsTableNameParts drv w = (None, w1) ->
  CreateMigrationsTable drv w = (None, w1)
  /\ SelectMigrations drv limit w = (None, w1)
  /\ InsertMigration drv version w = (None, w1)
  /\ DeleteMigration drv version w = (None, w1)
  /\ schemaMigrationsDump drv w = (None, w1).
Proof.
  intros Hparts.
  assert (quotedMigrationsTableName drv w = (None, w1)) as Hname
    by (by rewrite quotedMigrationsTableName_run, Hparts).
  repeat split.
  - unfold CreateMigrationsTable. unfold_run. by rewrite Hparts.
  - unfold SelectMigrations. unfold_run. by rewrite Hname.
  - unfold InsertMigration. unfold_run. by rewrite Hname.
  - unfold DeleteMigration. unfold_run. by rewrite Hname.
  - unfold schemaMigrationsDump. unfold_run. by rewrite Hname.
Qed.

(** X4: resolving the quoted identity panics (out of range) exactly
    when the table is resolved and the server answers the quoting query
    with no error and no row; creating the table, listing, inserting,
    deleting and building the ledger script then panic too, with
    nothing sent after the quoting query. *)
Theorem X4_empty_quoting_answer_panics (drv : Driver) (w : World DB)
    (version : string) (limit : Z) :
  (fst (quotedMigrationsTableNameParts drv w) = None
   <-> exists schema parts w1,
         migrationsTableNameParts drv w = (Some (schema, parts, None), w1)
         /\ fst (QueryColumn quoteQuery [ArrayArg (schema :: parts)] (conn w1)) = ([], None))
  /\ (fst (quotedMigrationsTableNameParts drv w) = None ->
      let w2 := snd (quotedMigrationsTableNameParts drv w) in
      CreateMigrationsTable drv w = (None, w2)
      /\ SelectMigrations drv limit w = (None, w2)
      /\ InsertMigration drv version w = (None, w2)
      /\ DeleteMigration drv version w = (None, w2)
      /\ schemaMigrationsDump drv w = (None, w2)).
Proof.
  split.
  - destruct (migrationsTableNameParts_returns drv w) as (schema & parts & err & w1 & Hparts).
    destruct err as [e|].
    + unfold quotedMigrationsTableNameParts. unfold_run. rewrite Hparts. simpl.
      split; [done|]. intros (s & p & w1' & [=] & _).
    + rewrite (quotedMigrationsTableNameParts_run drv w w1 schema parts Hparts).
      destruct (QueryColumn _ _ _) as [[quoted err] db] eqn:Hquote.
      split.
      * intros Hpanic. exists schema, parts, w1. split; [done|]. rewrite Hquote. simpl.
        destruct err; [done|]. by destruct quoted.
      * intros (s & p & w1' & Heq & Hanswer).
        rewrite Hparts in Heq. injection Heq as <- <- <-.
        rewrite Hquote in Hanswer. simpl in Hanswer. destruct err; [by inversion Hanswer|].
        destruct quoted; [done|by inversion Hanswer].
  - intros Hpanic w2. apply quoted_identity_panic.
    subst w2. destruct (quotedMigrationsTableNameParts drv w) as [r w2]. simpl in *.
    by rewrite Hpanic.
Qed.

End Failures.

Section Names.

Context {DB : Type} `{!sql.Transaction DB}.

Import sql.

(** Joining the fields of a split gives the string back. *)
Lemma Join_Split (s : string) (sep : ascii) :
  strings.Join (strings.Split s sep) (String sep "") = s.
Proof.
  induction s as [|c r IH]; [done|].
  simpl. destruct (Ascii.eqb_spec c sep) as [->|Hne].
  - destruct (Split_cons r sep) as (f & fs & E). rewrite E in IH |- *.
    change (strings.Join ("" :: f :: fs) (String sep ""))
      with (String sep (strings.Join (f :: fs) (String sep ""))).
    by rewrite IH.
  - destruct (Split_cons r sep) as (f & fs & E). rewrite E in IH |- *.
    destruct fs as [|g fs].
    + simpl in *. by rewrite IH.
    + change (strings.Join (String c f :: g :: fs) (String sep ""))
        with (String c (strings.Join (f :: g :: fs) (String sep ""))).
      by rewrite IH.
Qed.

Lemma segments_of_the_name (drv : Driver) (w w1 : World DB)
    (schema : string) (parts : list string) :
  migrationsTableNameParts drv w = (Some (schema, parts, None), w1) ->
  parts <> []
  /\ (if strings.ContainsByte (migrationsTableName drv) "."
      then firstSegment (migrationsTableName drv) +:+ "." +:+ strings.Join parts "."
      else strings.Join parts ".") = migrationsTableName drv.
Proof.
  intros Hparts.
  assert (parts = tableSegments (migrationsTableName drv)) as ->.
  { rewrite migrationsTableNameParts_run in Hparts.
    destruct (String.eqb _ ""); [|by injection Hparts].
    destruct (QueryValue _ _ _) as [[current [e|]] db]; [done|by injection Hparts]. }
  pose proof (Join_Split (migrationsTableName drv) ".") as Hjoin.
  pose proof (Split_one_iff (migrationsTableName drv) ".") as Hdot.
  unfold tableSegments, firstSegment.
  destruct (Split_cons (migrationsTableName drv) ".") as (f & fs & E).
  rewrite E in *. destruct (strings.ContainsByte (migrationsTableName drv) ".").
  - destruct fs as [|g fs]; [done|]. split; [done|]. exact Hjoin.
  - split; [done|]. exact Hjoin.
Qed.

(** X5: a resolution that returns no error never gives an empty list of
    table segments, and the segments put the configured name back
    together: joined by dots they are the name itself when it has no
    dot, and the name after its first segment and dot when it has one. *)
Theorem X5_segments_rebuild_the_name (drv : Driver) (w w1 : World DB)
    (schema : string) (parts : list string) :
  migrationsTableNameParts drv w = (Some (schema, parts, None), w1) ->
  parts <> []
  /\ (if strings.ContainsByte (migrationsTableName drv) "."
      then firstSegment (migrationsTableName drv) +:+ "." +:+ strings.Join parts "."
      else strings.Join parts ".") = migrationsTableName drv.
Proof. apply segments_of_the_name. Qed.

Lemma scanVersions_values (scans : list (string + error)) (m : gmap string bool) :
  (forall v b, m !! v = Some b -> b = true) ->
  forall v b, (scanVersions scans m).1 !! v = Some b -> b = true.
Proof.
  revert m. induction scans as [|[version|e] scans IH]; intros m Hm v b; simpl.
  - apply Hm.
  - apply IH. intros v' b'. destruct (decide (v' = version)) as [->|Hne].
    + rewrite lookup_insert_eq. congruence.
    + rewrite lookup_insert_ne by done. apply Hm.
  - apply Hm.
Qed.

Lemma scanVersions_failure (versions : list string) (e : error)
    (rest : list (string + error)) (m : gmap string bool) :
  exists m', scanVersions (map inl versions ++ inr e :: rest) m = (m', Some e).
Proof.
  revert m. induction versions as [|v versions IH]; intros m; [by exists m|]. apply IH.
Qed.

Lemma select_never_partial (drv : Driver) (limit : Z) (w w' : World DB)
    (migrations : gmap string bool) (err : option error) :
  SelectMigrations drv limit w = (Some (migrations, err), w') ->
  (err <> None -> migrations = ∅)
  /\ (forall v b, migrations !! v = Some b -> b = true).
Proof.
  unfold SelectMigrations. unfold_run.
  destruct (quotedMigrationsTableName drv w) as [[[T [e|]]|] w1]; simpl;
    [by intros [= <- <- <-]| |done].
  destruct (Query _ _ _) as [[rows [e|]] db]; simpl; [by intros [= <- <- <-]|].
  pose proof (scanVersions_values (scans rows) ∅) as Hvalues.
  destruct (scanVersions (scans rows) ∅) as [m [e|]]; [by intros [= <- <- <-]|].
  destruct (rowsErr rows) as [e|]; [by intros [= <- <- <-]|].
  intros [= <- <- <-]. split; [done|].
  apply Hvalues. intros v b. by rewrite lookup_empty.
Qed.

(** X6: once the table name is resolved, [SelectMigrations] sends its
    one query, and every failure is returned, with the empty map: the
    error of a failed query, the error of the first row that does not
    scan (whatever was read before it and whatever follows), and the
    error of a failed iteration.  Only when the query, every scan and
    the iteration succeed does it return versions: exactly the rows,
    each marked [true], with no error.  So it never returns versions
    together with an error, and never a version marked [false]. *)
Theorem X6_select_all_or_nothing (drv : Driver) (limit : Z) (w w1 : World DB) (T : string)
    (rows : Rows) (failed : option error) (db : DB) :
  let query := selectMigrationsQuery T limit in
  let w2 := after w1 (CallQuery query []) db in
  quotedMigrationsTableName drv w = (Some (T, None), w1) ->
  Query query [] (conn w1) = ((rows, failed), db) ->
  (forall e, failed = Some e -> SelectMigrations drv limit w = (Some (∅, Some e), w2))
  /\ (forall versions e rest,
        failed = None -> scans rows = map inl versions ++ inr e :: rest ->
        SelectMigrations drv limit w = (Some (∅, Some e), w2))
  /\ (forall versions e,
        failed = None -> scans rows = map inl versions -> rowsErr rows = Some e ->
        SelectMigrations drv limit w = (Some (∅, Some e), w2))
  /\ (forall versions,
        failed = None -> scans rows = map inl versions -> rowsErr rows = None ->
        exists migrations,
          SelectMigrations drv limit w = (Some (migrations, None), w2)
          /\ forall v, migrations !! v = if decide (v ∈ versions) then Some true else None)
  /\ (forall migrations err w',
        SelectMigrations drv limit w = (Some (migrations, err), w') ->
        (err <> None -> migrations = ∅)
        /\ (forall v b, migrations !! v = Some b -> b = true)).
Proof.
  intros query w2 Hname Hquery.
  assert (SelectMigrations drv limit w
          = match failed with
            | Some _ => (Some (∅, failed), w2)
            | None =>
                let '(migrations, err) := scanVersions (scans rows) ∅ in
                match err with
                | Some _ => (Some (∅, err), w2)
                | None =>
                    match rowsErr rows with
                    | Some e => (Some (∅, Some e), w2)
                    | None => (Some (migrations, None), w2)
                    end
                end
            end) as Hrun.
  { unfold SelectMigrations. unfold_run. rewrite Hname. simpl. fold query.
    rewrite Hquery. simpl. destruct failed; [done|].
    destruct (scanVersions (scans rows) ∅) as [m [e|]]; [done|].
    by destruct (rowsErr rows). }
  split; [|split; [|split; [|split]]].
  - intros e ->. exact Hrun.
  - intros versions e rest -> Hscans. rewrite Hrun, Hscans.
    by destruct (scanVersions_failure versions e rest ∅) as [m ->].
  - intros versions e -> Hscans Herr. rewrite Hrun, Hscans.
    destruct (scanVersions_rows versions ∅) as (m & -> & _). by rewrite Herr.
  - intros versions -> Hscans Herr. rewrite Hrun, Hscans.
    destruct (scanVersions_rows versions ∅) as (m & -> & Hlookup & _). rewrite Herr.
    exists m. split; [done|]. intros v. by rewrite Hlookup, lookup_empty.
  - intros migrations err w'. apply select_never_partial.
Qed.

(** X7: once the table is resolved, the existence check asks the catalog
    once; a catalog answer of "no rows" is reported as (false, nil), so
    the check never returns [sql.ErrNoRows], and any other catalog
    answer is returned as it is. *)
Theorem X7_no_rows_is_not_an_error (drv : Driver) (w w1 : World DB) (schema : string)
    (parts : list string) (found : bool) (err : option error) (db : DB) :
  let lookup := [StringArg schema; StringArg (strings.Join parts ".")] in
  migrationsTableNameParts drv w = (Some (schema, parts, None), w1) ->
  QueryRowBool catalogQuery lookup (conn w1) = ((found, err), db) ->
  exists answer failure,
    MigrationsTableExists drv w
    = (Some (answer, failure), after w1 (CallQuery catalogQuery lookup) db)
    /\ failure <> Some ErrNoRows
    /\ (err = Some ErrNoRows -> answer = false /\ failure = None)
    /\ (err <> Some ErrNoRows -> answer = found /\ failure = err).
Proof.
  intros lookup Hparts Hrow.
  unfold MigrationsTableExists. unfold_run. rewrite Hparts. simpl.
  change ("SELECT 1 FROM information_schema.tables "
          +:+ "WHERE  table_schema = $1 " +:+ "AND    table_name   = $2")
    with catalogQuery.
  fold lookup. rewrite Hrow. simpl. unfold after.
  destruct err as [[e| |msg|msg inner]|]; simpl; eexists _, _;
    (split; [done|]); repeat split; congruence.
Qed.

(** X8: the version given to [InsertMigration] and [DeleteMigration]
    never reaches the text of what is sent: for any two versions the
    calls have the same texts, in the same order; the version travels
    as the argument of the statement only. *)
Theorem X8_version_is_only_an_argument (drv : Driver) (v v' : string) (w : World DB) :
  map callText (sent (snd (InsertMigration drv v w)))
  = map callText (sent (snd (InsertMigration drv v' w)))
  /\ map callText (sent (snd (DeleteMigration drv v w)))
     = map callText (sent (snd (DeleteMigration drv v' w)))
  /\ (forall T w1, quotedMigrationsTableName drv w = (Some (T, None), w1) ->
        sent (snd (InsertMigration drv v w))
        = sent w1 ++ [CallExec ("insert into " +:+ T +:+ " (version) values ($1)") [StringArg v]]
        /\ sent (snd (DeleteMigration drv v w))
           = sent w1 ++ [CallExec ("delete from " +:+ T +:+ " where version = $1") [StringArg v]]).
Proof.
  unfold InsertMigration, DeleteMigration. unfold_run.
  destruct (quotedMigrationsTableName drv w) as [[[T [e|]]|] w1]; simpl.
  - repeat split; intros; simplify_eq.
  - split; [|split].
    + destruct (Exec _ [StringArg v] _), (Exec _ [StringArg v'] _). simpl.
      by rewrite !map_app.
    + destruct (Exec _ [StringArg v] _), (Exec _ [StringArg v'] _). simpl.
      by rewrite !map_app.
    + intros T' w1' [= <- <-]. split.
      * by destruct (Exec _ [StringArg v] _).
      * by destruct (Exec _ [StringArg v] _).
  - repeat split; intros; simplify_eq.
Qed.

(** X15: when the server answers the quoting query with one row for each
    identifier sent, the quoted table name is those rows joined by
    dots (the schema first), and the resolution does not panic. *)
Theorem X15_quoted_name_joins_the_rows (drv : Driver) (w w1 : World DB) (schema : string)
    (parts quoted : list string) (db : DB) :
  migrationsTableNameParts drv w = (Some (schema, parts, None), w1) ->
  QueryColumn quoteQuery [ArrayArg (schema :: parts)] (conn w1) = ((quoted, None), db) ->
  length quoted = length (schema :: parts) ->
  quotedMigrationsTableName drv w
  = (Some (strings.Join quoted ".", None),
     after w1 (CallQuery quoteQuery [ArrayArg (schema :: parts)]) db).
Proof.
  intros Hparts Hquote Hlen.
  destruct (segments_of_the_name drv w w1 schema parts Hparts) as [Hne _].
  rewrite quotedMigrationsTableName_run.
  rewrite (quotedMigrationsTableNameParts_run drv w w1 schema parts Hparts), Hquote.
  destruct parts as [|p parts]; [done|].
  destruct quoted as [|q0 [|q1 qs]]; [done..|]. done.
Qed.

End Names.

(** ** White space and the dump arguments *)

Section Trimming.

Import strings.

Lemma length_append (a b : string) :
  String.length (a +:+ b) = String.length a + String.length b.
Proof.
  induction a as [|c a IH]; [done|].
  change (String c a +:+ b) with (String c (a +:+ b)). simpl. by rewrite IH.
Qed.

(** One step of [dropSpaces]: nothing to drop, or a rune dropped. *)
Lemma dropSpaces_step (fwd : bool) (s : string) :
  (leadingSpace fwd s = false /\ dropSpaces fwd s = s)
  \/ (leadingSpace fwd s = true
      /\ exists p r, s = p +:+ r /\ p <> "" /\ dropSpaces fwd s = dropSpaces fwd r).
Proof.
  destruct s as [|c1 r1]; [by left|].
  simpl. destruct (asciiSpace c1).
  { right. split; [done|]. by exists (String c1 ""), r1. }
  destruct r1 as [|c2 r2]; [by left|].
  destruct (if fwd then space2 c1 c2 else space2 c2 c1).
  { right. split; [done|]. by exists (String c1 (String c2 "")), r2. }
  destruct r2 as [|c3 r3]; [by left|].
  destruct (if fwd then space3 c1 c2 c3 else space3 c3 c2 c1).
  { right. split; [done|]. by exists (String c1 (String c2 (String c3 ""))), r3. }
  by left.
Qed.

Lemma dropSpaces_facts (fwd : bool) (n : nat) : forall s,
  String.length s <= n ->
  (exists p, s = p +:+ dropSpaces fwd s)
  /\ leadingSpace fwd (dropSpaces fwd s) = false.
Proof.
  induction n as [|n IH]; intros s Hn.
  - destruct s; [|simpl in Hn; lia]. split; [by exists ""|done].
  - destruct (dropSpaces_step fwd s) as [[Hlead ->]|(_ & p & r & -> & Hp & ->)].
    + split; [by exists ""|done].
    + rewrite length_append in Hn.
      destruct p as [|c p]; [done|]. simpl in Hn.
      destruct (IH r) as [[q Hq] Hlead]; [lia|].
      split; [|done]. exists (String c p +:+ q).
      rewrite append_assoc. by f_equal.
Qed.

Lemma dropSpaces_fixed (fwd : bool) (s : string) :
  leadingSpace fwd s = false -> dropSpaces fwd s = s.
Proof.
  intros Hlead. destruct (dropSpaces_step fwd s) as [[_ ?]|[Hlead' _]]; [done|congruence].
Qed.

Lemma leadingSpace_prefix (fwd : bool) (a b : string) :
  leadingSpace fwd (a +:+ b) = false -> leadingSpace fwd a = false.
Proof.
  destruct a as [|c1 [|c2 [|c3 a]]]; [done| | |].
  - change (String c1 "" +:+ b) with (String c1 b). simpl.
    intros H%orb_false_elim. by rewrite (proj1 H).
  - change (String c1 (String c2 "") +:+ b) with (String c1 (String c2 b)). simpl.
    intros [H1 [H2 _]%orb_false_elim]%orb_false_elim. by rewrite H1, H2.
  - change (String c1 (String c2 (String c3 a)) +:+ b)
      with (String c1 (String c2 (String c3 (a +:+ b)))). done.
Qed.

Lemma rev_app_append (a b t : string) :
  String.rev_app (a +:+ b) t = String.rev_app b (String.rev_app a t).
Proof.
  revert t. induction a as [|c a IH]; intros t; [done|].
  change (String c a +:+ b) with (String c (a +:+ b)). simpl. apply IH.
Qed.

Lemma rev_app_rev_app (a t u : string) :
  String.rev_app (String.rev_app a t) u = String.rev_app t (a +:+ u).
Proof.
  revert t u. induction a as [|c a IH]; intros t u; [done|].
  simpl. rewrite IH. done.
Qed.

Lemma rev_rev (s : string) : String.rev (String.rev s) = s.
Proof. unfold String.rev. rewrite rev_app_rev_app. simpl. apply append_empty_r. Qed.

Lemma rev_append (a b : string) : String.rev (a +:+ b) = String.rev b +:+ String.rev a.
Proof.
  unfold String.rev. rewrite rev_app_append.
  generalize (String.rev_app a ""). intros t. revert t.
  induction b as [|c b IH]; intros t; [done|].
  simpl. rewrite IH, (IH (String c "")), append_assoc. done.
Qed.

(** A trimmed string is left as it is by [TrimSpace]. *)
Lemma TrimSpace_idempotent (s : string) : TrimSpace (TrimSpace s) = TrimSpace s.
Proof.
  unfold TrimSpace.
  destruct (dropSpaces_facts true _ s (le_n _)) as [_ Hlead].
  destruct (dropSpaces_facts false _ (String.rev (dropSpaces true s)) (le_n _))
    as [[p Hp] Hback].
  set (y := dropSpaces true s) in *.
  set (z := dropSpaces false (String.rev y)) in *.
  assert (y = String.rev z +:+ String.rev p) as Hy.
  { rewrite <- rev_append, <- Hp. by rewrite rev_rev. }
  assert (dropSpaces true (String.rev z) = String.rev z) as ->.
  { apply dropSpaces_fixed, (leadingSpace_prefix true _ (String.rev p)). by rewrite <- Hy. }
  by rewrite rev_rev, (dropSpaces_fixed false z).
Qed.

(** Neither end of a trimmed string is white space. *)
Lemma TrimSpace_ends (s : string) :
  leadingSpace true (TrimSpace s) = false
  /\ leadingSpace false (String.rev (TrimSpace s)) = false.
Proof.
  unfold TrimSpace.
  destruct (dropSpaces_facts true _ s (le_n _)) as [_ Hlead].
  destruct (dropSpaces_facts false _ (String.rev (dropSpaces true s)) (le_n _))
    as [[p Hp] Hback].
  set (y := dropSpaces true s) in *.
  set (z := dropSpaces false (String.rev y)) in *.
  split; [|by rewrite rev_rev].
  apply (leadingSpace_prefix true _ (String.rev p)).
  rewrite <- rev_append, <- Hp. by rewrite rev_rev.
Qed.

(** X9: every schema name handed to the dump process is a non-empty
    string with no white-space rune at its start or at its end
    (ASCII or not), and the URL comes after the last of them. *)
Theorem X9_dump_schema_names_are_trimmed (URLString : url.URL -> string) (u : url.URL) :
  exists names rendered,
    connectionArgsForDump URLString u
    = flat_map (fun s => ["--schema"; s]) names ++ [rendered]
    /\ Forall (fun s => s <> ""
                        /\ leadingSpace true s = false
                        /\ leadingSpace false (String.rev s) = false) names.
Proof.
  eexists _, _. split.
  - unfold connectionArgsForDump, schemaArgs. rewrite schemaArgs_fold. done.
  - apply Forall_forall. intros s [Hs Hin]%list_elem_of_filter.
    apply list_elem_of_fmap in Hin as (raw & -> & _).
    split; [done|]. apply TrimSpace_ends.
Qed.

(** X10: deriving the dump arguments is idempotent on the URL: from the
    URL the derivation ends with, it gives no schema flag and that same
    URL again. *)
Theorem X10_stripped_url_is_stable (URLString : url.URL -> string) (u : url.URL) :
  let stripped :=
    url.withRawQuery u (url.Encode (url.Del (url.Query u) "search_path")) in
  connectionArgsForDump URLString stripped = [URLString stripped].
Proof.
  intros stripped. unfold connectionArgsForDump, cloneURL.
  assert (url.Query stripped = url.Del (url.Query u) "search_path") as Hq.
  { unfold url.Query at 1. simpl.
    apply ParseQuery_Encode, populated_Del, populated_ParseQuery. }
  assert (url.Del (url.Query u) "search_path" !! "search_path" = None) as Hnone
    by apply lookup_delete_eq.
  rewrite Hq. unfold url.Get. rewrite Hnone.
  unfold url.Del at 1. rewrite (delete_id _ _ Hnone).
  change (schemaArgs (strings.Split "" ",")) with (@nil string). simpl.
  do 2 f_equal.
Qed.

End Trimming.

(** ** The dump, the maintenance connection and the ping *)

Section Outside.

Context {DB : Type} `{!sql.Transaction DB}.
Variable URLString : url.URL -> string.
Variable sqlOpen : string -> DB + error.
Variable dbPing : DB -> option error.
Variable RunCommand : string -> list string -> string * option error.
Variable TrimLeadingSQLComments : string -> string * option error.

Import sql.

(** X11: [DumpSchema] runs "pg_dump" with the five fixed flags, then the
    [--schema] pairs of the search path, then the stripped URL.  When
    the process fails, its error is returned with no output and the
    connection is not used at all; when it succeeds, the ledger script
    is built next and the result is [TrimLeadingSQLComments] of the
    process output followed by the script, a failure (or panic) of the
    script being returned as it is. *)
Theorem X11_dump_schema_order (drv : Driver) (w : World DB) :
  let u := databaseURL drv in
  let args :=
    dumpFlags
    ++ flat_map (fun s => ["--schema"; s])
         (searchPathEntries (url.Get (url.Query u) "search_path"))
    ++ [URLString (url.withRawQuery u (url.Encode (url.Del (url.Query u) "search_path")))] in
  let dump := DumpSchema URLString RunCommand TrimLeadingSQLComments drv w in
  (forall out e, RunCommand "pg_dump" args = (out, Some e) -> dump = (Some ("", Some e), w))
  /\ (forall structure, RunCommand "pg_dump" args = (structure, None) ->
        dump = match schemaMigrationsDump drv w with
               | (Some (script, None), w1) =>
                   (Some (TrimLeadingSQLComments (structure +:+ script)), w1)
               | (Some (_, Some e), w1) => (Some ("", Some e), w1)
               | (None, w1) => (None, w1)
               end).
Proof.
  intros u args dump. subst dump. unfold DumpSchema.
  assert (["--format=plain"; "--encoding=UTF8"; "--schema-only"; "--no-privileges"; "--no-owner"]
          ++ connectionArgsForDump URLString (databaseURL drv) = args) as ->.
  { subst args u. unfold connectionArgsForDump, cloneURL, schemaArgs, searchPathEntries.
    by rewrite schemaArgs_fold. }
  split.
  - intros out e ->. done.
  - intros structure ->. unfold_run.
    destruct (schemaMigrationsDump drv w) as [[[script [e|]]|] w1]; done.
Qed.

(** Reading a quoted identifier back. *)
Lemma scanQuotedBody_doubleQuotes (name rest : string) :
  (forall r, rest <> String pq.DQ r) ->
  scanQuotedBody (pq.doubleQuotes name +:+ String pq.DQ rest) = Some (name, rest).
Proof.
  intros Hrest. induction name as [|c name IH].
  - change (pq.doubleQuotes "" +:+ String pq.DQ rest) with (String pq.DQ rest).
    simpl. destruct rest as [|c' r]; [done|].
    destruct (Ascii.eqb_spec c' pq.DQ) as [->|_]; [|done]. by destruct (Hrest r).
  - simpl. destruct (Ascii.eqb_spec c pq.DQ) as [->|Hc].
    + change (String pq.DQ (String pq.DQ (pq.doubleQuotes name)) +:+ String pq.DQ rest)
        with (String pq.DQ (String pq.DQ (pq.doubleQuotes name +:+ String pq.DQ rest))).
      simpl. by rewrite IH.
    + change (String c (pq.doubleQuotes name) +:+ String pq.DQ rest)
        with (String c (pq.doubleQuotes name +:+ String pq.DQ rest)).
      simpl. destruct (Ascii.eqb_spec c pq.DQ); [done|]. by rewrite IH.
Qed.

Lemma scanQuoted_QuoteIdentifier (name rest : string) :
  (forall r, rest <> String pq.DQ r) ->
  scanQuoted (pq.QuoteIdentifier name +:+ rest) = Some (pq.untilNUL name, rest).
Proof.
  intros Hrest. unfold pq.QuoteIdentifier.
  change (String pq.DQ (pq.doubleQuotes (pq.untilNUL name) +:+ String pq.DQ "") +:+ rest)
    with (String pq.DQ ((pq.doubleQuotes (pq.untilNUL name) +:+ String pq.DQ "") +:+ rest)).
  rewrite append_assoc. simpl. by apply scanQuotedBody_doubleQuotes.
Qed.

(** X12: [CreateDatabase] and [DropDatabase] first write the database
    name to the log; they open the configured URL with its path
    replaced by "postgres"; when that fails they return the error and
    execute nothing; otherwise they return the result of one statement
    on that connection, in which the quoted identifier read back by the
    server's rule for quoted identifiers is the driver's database name
    (cut at a NUL byte) and is followed by ";" and nothing else, so no
    character of the name can end the identifier early.  The
    connection handed to the other operations is not used. *)
Theorem X12_create_and_drop_database (drv : Driver) (w : World DB) :
  let maintenance := sqlOpen (URLString (url.withPath (databaseURL drv) "postgres")) in
  let name := databaseName drv in
  exists create drop,
    strings.stripPrefix "create database " create
      = Some (pq.QuoteIdentifier name +:+ ";")
    /\ strings.stripPrefix "drop database if exists " drop
       = Some (pq.QuoteIdentifier name +:+ ";")
    /\ scanQuoted (pq.QuoteIdentifier name +:+ ";") = Some (pq.untilNUL name, ";")
    /\ CreateDatabase URLString sqlOpen drv w
       = (Some match maintenance with
               | inl db => fst (Exec create [] db)
               | inr e => Some e
               end,
          afterLog w ("Creating: " +:+ name +:+ LF))
    /\ DropDatabase URLString sqlOpen drv w
       = (Some match maintenance with
               | inl db => fst (Exec drop [] db)
               | inr e => Some e
               end,
          afterLog w ("Dropping: " +:+ name +:+ LF)).
Proof.
  intros maintenance name.
  exists ("create database " +:+ pq.QuoteIdentifier name +:+ ";"),
         ("drop database if exists " +:+ pq.QuoteIdentifier name +:+ ";").
  split; [apply stripPrefix_app|]. split; [apply stripPrefix_app|].
  split; [by apply scanQuoted_QuoteIdentifier|].
  unfold CreateDatabase, DropDatabase, openMaintenanceDB, cloneURL. unfold_run.
  fold name maintenance. simpl. unfold afterLog.
  split; by destruct maintenance.
Qed.

(** X13: [Ping] returns nil whatever the probe gives: its result is
    never assigned the probe's error, so a server that cannot be
    reached, or a failing ping, is not reported. *)
Theorem X13_ping_returns_nil (drv : Driver) :
  Ping URLString sqlOpen dbPing drv = None.
Proof.
  unfold Ping. by destruct (isCode _ _).
Qed.

End Outside.

(** X14: the database name of a new driver is empty exactly when the URL
    has no path beyond a single slash, PGDATABASE is unset or empty, and
    the URL has no user name. *)
Theorem X14_database_name_empty (environ : gmap string string) (table : string) (u : url.URL) :
  databaseName (NewDriver environ table u) = ""
  <-> (url.Path u = "" \/ url.Path u = "/")
      /\ os.Getenv environ "PGDATABASE" = ""
      /\ userName u = "".
Proof.
  unfold NewDriver, resolveDatabaseName, userName. simpl.
  destruct u as [scheme user host path query fragment]. simpl.
  generalize (os.Getenv environ "PGDATABASE"). intros override.
  assert (forall s t : string,
            (if String.eqb s "" then t else s) = "" <-> s = "" /\ t = "") as Hor.
  { intros s t. destruct (String.eqb_spec s ""); intuition congruence. }
  assert (from_option url.Username "" user
          = match user with Some ui => url.Username ui | None => "" end) as ->
    by (by destruct user).
  destruct path as [|c path].
  - rewrite Hor. destruct user; rewrite Hor; intuition congruence.
  - destruct (Ascii.eqb_spec c "/") as [->|Hc].
    + rewrite Hor. destruct user; rewrite Hor; intuition congruence.
    + rewrite Hor. destruct user; rewrite Hor; intuition congruence.
Qed.

(** ** Concrete runs of the other operations *)

Lemma X2_witness :
  searchPathSchema (databaseURL ledgerDriver) = ""
  /\ InsertMigration ledgerDriver "20230101" Broken.world
     = (Some (Some Broken.failure),
        after Broken.world (sql.CallQuery "select current_schema()" []) tt)
  /\ fst (MigrationsTableExists ledgerDriver Broken.world) = Some (false, Some Broken.failure).
Proof.
  split; [reflexivity|].
  destruct (X2_schema_lookup_failure ledgerDriver Broken.world "" Broken.failure tt
              "20230101" 0)
    as (Hexists & _ & _ & Hinsert & _);
    [left; reflexivity | reflexivity | reflexivity |].
  split; [exact Hinsert|]. by rewrite Hexists.
Defined.

Lemma X3_witness :
  migrationsTableNameParts (dottedDriver "s.t") Broken.world
  = (Some ("s", ["t"], None), Broken.world)
  /\ CreateMigrationsTable (dottedDriver "s.t") Broken.world
     = (Some (Some Broken.failure),
        after Broken.world (sql.CallQuery quoteQuery [sql.ArrayArg ["s"; "t"]]) tt).
Proof.
  split; [reflexivity|].
  destruct (X3_quoting_failure (dottedDriver "s.t") Broken.world Broken.world "s" ["t"] []
              Broken.failure tt "20230101" 0)
    as (Hcreate & _); [reflexivity | reflexivity |].
  exact Hcreate.
Defined.

Lemma X4_witness :
  fst (quotedMigrationsTableNameParts ledgerDriver Silent.world) = None
  /\ fst (InsertMigration ledgerDriver "20230101" Silent.world) = None
  /\ sent (snd (InsertMigration ledgerDriver "20230101" Silent.world))
     = [sql.CallQuery "select current_schema()" [];
        sql.CallQuery quoteQuery [sql.ArrayArg ["public"; "schema_migrations"]]].
Proof.
  assert (fst (quotedMigrationsTableNameParts ledgerDriver Silent.world) = None) as Hpanic
    by reflexivity.
  split; [exact Hpanic|].
  destruct (proj2 (X4_empty_quoting_answer_panics ledgerDriver Silent.world "20230101" 0)
              Hpanic) as (_ & _ & Hinsert & _).
  rewrite Hinsert. split; reflexivity.
Defined.

Lemma X5_witness :
  migrationsTableNameParts (dottedDriver "a.b.c") (server [] [])
  = (Some ("a", ["b"; "c"], None), server [] [])
  /\ "a" +:+ "." +:+ strings.Join ["b"; "c"] "." = "a.b.c".
Proof.
  split; [reflexivity|].
  exact (proj2 (X5_segments_rebuild_the_name (dottedDriver "a.b.c") (server [] [])
                  (server [] []) "a" ["b"; "c"] eq_refl)).
Defined.

Lemma X6_witness :
  fst (quotedMigrationsTableName ledgerDriver Flaky.world) = Some (ledgerName, None)
  /\ fst (SelectMigrations ledgerDriver 5 Flaky.world) = Some (∅, Some Flaky.scanFailure).
Proof.
  split; [reflexivity|].
  destruct (X6_select_all_or_nothing ledgerDriver 5 Flaky.world
              (snd (quotedMigrationsTableName ledgerDriver Flaky.world))
              ledgerName Flaky.answer None (conn Flaky.world))
    as (_ & Hscan & _); [vm_compute; reflexivity | vm_compute; reflexivity |].
  by rewrite (Hscan ["20230103"] Flaky.scanFailure [inl "20230101"] eq_refl eq_refl).
Defined.

Lemma X7_witness :
  exists answer failure,
    fst (MigrationsTableExists ledgerDriver (server [] [])) = Some (answer, failure)
    /\ answer = false /\ failure = None.
Proof.
  destruct (X7_no_rows_is_not_an_error ledgerDriver (server [] [])
              (snd (migrationsTableNameParts ledgerDriver (server [] [])))
              "public" ["schema_migrations"] false (Some ErrNoRows) idleDB)
    as (answer & failure & Hrun & _ & Hnone & _); [reflexivity | reflexivity |].
  exists answer, failure. rewrite Hrun. split; [reflexivity|]. by apply Hnone.
Defined.

Lemma X15_witness :
  fst (quotedMigrationsTableName (dottedDriver "a.b.c") (server [] []))
  = Some (Mock.quoteIdent "a" +:+ "." +:+ Mock.quoteIdent "b" +:+ "." +:+ Mock.quoteIdent "c",
          None).
Proof.
  rewrite (X15_quoted_name_joins_the_rows (dottedDriver "a.b.c") (server [] []) (server [] [])
             "a" ["b"; "c"] (map Mock.quoteIdent ["a"; "b"; "c"]) idleDB);
    vm_compute; reflexivity.
Defined.

Example create_database_statement :
  fst (CreateDatabase Mock.urlString (reachable idleDB)
         (NewDriver ∅ "schema_migrations" (Mock.pgURL ("/my" +:+ Mock.DQ +:+ "db") ""))
         (server [] []))
  = Some None
  /\ scanQuoted (pq.QuoteIdentifier ("my" +:+ Mock.DQ +:+ "db") +:+ ";")
     = Some ("my" +:+ Mock.DQ +:+ "db", ";").
Proof. split; vm_compute; reflexivity. Qed.

Example ping_hides_the_failure :
  DatabaseExists Mock.urlString (unreachable Broken.failure) (fun _ => None) ledgerDriver
  = (false, Some Broken.failure)
  /\ Ping Mock.urlString (unreachable Broken.failure) (fun _ => None) ledgerDriver = None.
Proof. split; reflexivity. Qed.
